(** * gomplate: template gathering, naming and execution orchestration

    A shallow embedding of [gomplate.go] (alias resolution, output namers,
    the execution loop) and of [processIncludes] from [cmd/gomplate/main.go],
    together with the properties the design document states about them.

    Go strings are byte strings ([string]); Go maps are [gmap]s; Go's
    [(value, error)] results are kept as they are returned; calls into
    collaborators that live outside these two files (the template engine,
    the data-source layer, the template gatherer, the filesystem) are
    parameters of the development. *)

From Stdlib Require Import Ascii String DecimalString.
From stdpp Require Import base option list strings gmap fin_maps.

Local Open Scope string_scope.
Local Open Scope list_scope.

(** ** Go values used throughout *)

(** A Go result [(T, error)]: either the value or the error is meaningful. *)
Inductive result (E A : Type) : Type :=
  | Ok (a : A)
  | Err (e : E).
Arguments Ok {E A} a.
Arguments Err {E A} e.

(** ** The [strings] and [path] packages of the Go standard library

    These are transcribed from the library's Unix implementation: they are
    what [gomplate.go] links against. *)

Module GoStrings.

Definition bytes (s : string) : list nat :=
  map nat_of_ascii (list_ascii_of_string s).

Definition of_bytes (l : list nat) : string :=
  string_of_list_ascii (map ascii_of_nat l).

(** [strings.SplitN(s, sep, 2)] for a one-byte separator: the text before
    the first separator and the text after it, or [s] alone. *)
Fixpoint cut (sep : ascii) (s : string) : option (string * string) :=
  match s with
  | EmptyString => None
  | String c rest =>
      if Ascii.eqb c sep then Some (EmptyString, rest)
      else match cut sep rest with
           | Some (before, after) => Some (String c before, after)
           | None => None
           end
  end.

Definition SplitN2 (s : string) (sep : ascii) : list string :=
  match cut sep s with
  | Some (before, after) => [before; after]
  | None => [s]
  end.

(** UTF-8 encodings of the code points for which [unicode.IsSpace] holds. *)
Definition spaceRunes : list (list nat) :=
  [ [9]; [10]; [11]; [12]; [13]; [32];
    [194; 133]; [194; 160];
    [225; 154; 128];
    [226; 128; 128]; [226; 128; 129]; [226; 128; 130]; [226; 128; 131];
    [226; 128; 132]; [226; 128; 133]; [226; 128; 134]; [226; 128; 135];
    [226; 128; 136]; [226; 128; 137]; [226; 128; 138];
    [226; 128; 168]; [226; 128; 169]; [226; 128; 175];
    [226; 129; 159];
    [227; 128; 128] ].

Fixpoint stripPrefix (p l : list nat) : option (list nat) :=
  match p, l with
  | [], _ => Some l
  | x :: p', y :: l' => if Nat.eqb x y then stripPrefix p' l' else None
  | _ :: _, [] => None
  end.

Fixpoint firstStrip (ps : list (list nat)) (l : list nat) : option (list nat) :=
  match ps with
  | [] => None
  | p :: ps' =>
      match stripPrefix p l with
      | Some l' => Some l'
      | None => firstStrip ps' l
      end
  end.

(** Drop leading runes taken from [ps]; [fuel] bounds the number of runes. *)
Fixpoint trimLeftRunes (ps : list (list nat)) (fuel : nat) (l : list nat) : list nat :=
  match fuel with
  | O => l
  | S fuel' =>
      match firstStrip ps l with
      | Some l' => trimLeftRunes ps fuel' l'
      | None => l
      end
  end.

Definition trimLeft (l : list nat) : list nat :=
  trimLeftRunes spaceRunes (length l) l.

Definition trimRight (l : list nat) : list nat :=
  rev (trimLeftRunes (map (@rev nat) spaceRunes) (length l) (rev l)).

(** [strings.TrimSpace] *)
Definition TrimSpace (s : string) : string :=
  of_bytes (trimRight (trimLeft (bytes s))).

End GoStrings.

Module GoPath.

Definition slash : ascii := "/"%char.
Definition dot : ascii := "."%char.

Definition isSlash (c : ascii) : bool := Ascii.eqb c slash.
Definition isDot (c : ascii) : bool := Ascii.eqb c dot.

(** End of a path element: end of input or a separator. *)
Definition atBoundary (p : list ascii) : bool :=
  match p with
  | [] => true
  | c :: _ => isSlash c
  end.

(** The output buffer of [Clean] is kept reversed: its head is the byte at
    index [w-1].  [backtrack dotdot buf removed] is the loop
    [for out.w > dotdot && out.index(out.w) != '/' { out.w-- }]
    where [removed] is the byte at index [out.w]. *)
Fixpoint backtrack (dotdot : nat) (buf : list ascii) (removed : ascii) : list ascii :=
  match buf with
  | [] => []
  | c :: buf' =>
      if (dotdot <? length buf)%nat && negb (isSlash removed)
      then backtrack dotdot buf' c
      else buf
  end.

(** The main loop of [Clean].  [mid] tells that the loop is inside the
    inner copy loop of the default case (copying one path element). *)
Fixpoint cleanLoop (rooted mid : bool) (dotdot : nat)
         (out : list ascii) (p : list ascii) : list ascii :=
  match p with
  | [] => out
  | c :: rest =>
      if mid then
        if isSlash c then cleanLoop rooted false dotdot out rest
        else cleanLoop rooted true dotdot (c :: out) rest
      else if isSlash c then
        (* empty path element *)
        cleanLoop rooted false dotdot out rest
      else if isDot c && atBoundary rest then
        (* . element *)
        cleanLoop rooted false dotdot out rest
      else
        let default :=
          let out1 :=
            if (rooted && negb (length out =? 1)%nat)
               || (negb rooted && negb (length out =? 0)%nat)
            then slash :: out else out in
          cleanLoop rooted true dotdot (c :: out1) rest in
        match rest with
        | c2 :: rest2 =>
            if isDot c && isDot c2 && atBoundary rest2 then
              (* .. element: remove to last separator *)
              if (dotdot <? length out)%nat then
                match out with
                | c0 :: out' =>
                    cleanLoop rooted false dotdot (backtrack dotdot out' c0) rest2
                | [] => cleanLoop rooted false dotdot out rest2
                end
              else if negb rooted then
                let out1 := if (0 <? length out)%nat then slash :: out else out in
                let out2 := dot :: dot :: out1 in
                cleanLoop rooted false (length out2) out2 rest2
              else cleanLoop rooted false dotdot out rest2
            else default
        | [] => default
        end
  end.

(** [path.Clean] *)
Definition Clean (path : string) : string :=
  match list_ascii_of_string path with
  | [] => "."
  | (c :: _) as p =>
      let rooted := isSlash c in
      let out0 := if rooted then [slash] else [] in
      let out := cleanLoop rooted false (length out0) out0 p in
      match out with
      | [] => "."
      | _ => string_of_list_ascii (rev out)
      end
  end.

(** [strings.Join(elem, "/")] *)
Fixpoint joinSlash (elem : list string) : string :=
  match elem with
  | [] => ""
  | [e] => e
  | e :: rest => e +:+ "/" +:+ joinSlash rest
  end.

(** [path.Join]: the elements from the first non-empty one on, joined by
    slashes and cleaned; the empty string when every element is empty. *)
Fixpoint Join (elem : list string) : string :=
  match elem with
  | [] => ""
  | e :: rest =>
      if String.eqb e "" then Join rest
      else Clean (joinSlash elem)
  end.

End GoPath.

(** [path/filepath] on Unix: the separator is the slash and there are no
    volume names, so [filepath.Clean] and [filepath.Join] compute what
    [path.Clean] and [path.Join] compute. *)
Module GoFilepath.
Definition Clean (path : string) : string := GoPath.Clean path.
Definition Join (elem : list string) : string := GoPath.Join elem.
End GoFilepath.

(** ** [cmd/gomplate/main.go]: include globs *)

Module Main.

(** [out[i] = v] on a slice: an index out of range panics ([None]). *)
Definition setIndex (out : list string) (i : nat) (v : string) : option (list string) :=
  if decide (i < length out)%nat then Some (<[i := v]> out) else None.

(** The loop [for i, include := range includes { out[i+1] = "!" + include }]. *)
Fixpoint fillIncludes (i : nat) (includes : list string) (out : list string)
  : option (list string) :=
  match includes with
  | [] => Some out
  | include :: rest =>
      out' ← setIndex out (i + 1) ("!" +:+ include);
      fillIncludes (S i) rest out'
  end.

Definition processIncludes (includes excludes : list string) : option (list string) :=
  out ← (if (0 <? length includes)%nat
         then setIndex (replicate (1 + length includes) "") 0 "*"
         else Some []);
  out ← fillIncludes 0 includes out;
  Some (out ++ excludes).

End Main.

(** ** [gomplate.go]: the alias resolver *)

(** What the resolver reads of an [os.FileInfo]. *)
Record FileInfo : Type := mkFileInfo { Name : string; IsDir : bool }.

(** [type templateAliases map[string]string] *)
Abbreviation templateAliases := (gmap string string).

Module Aliases.
Section Resolver.

(** The filesystem [fs] the package resolves paths against: [fs.Stat] and
    [afero.ReadDir(fs, _)]. *)
Context {error : Type}.
Variable Stat : string → result error FileInfo.
Variable ReadDir : string → result error (list FileInfo).

(** The head of [parseTemplateArg]: [(alias, pth)] of an argument. *)
Definition splitArg (templateArg : string) : string * string :=
  let parts := GoStrings.SplitN2 templateArg "="%char in
  let pth := nth 0 parts "" in
  let alias := "" in
  if (1 <? length parts)%nat then (nth 0 parts "", nth 1 parts "")
  else (alias, pth).

Definition dirPrefix (alias pth : string) : string :=
  if negb (String.eqb alias "") then alias else pth.

(** One iteration of the loop over a directory listing. *)
Definition addEntry (prefix pth : string) (ta : templateAliases) (f : FileInfo)
  : templateAliases :=
  if negb (IsDir f) (* one-level only *)
  then <[GoPath.Join [prefix; Name f] := GoPath.Join [pth; Name f]]> ta
  else ta.

(** [parseTemplateArg] updates the map it is given in place; the model
    returns the map after the call together with the returned error. *)
Definition parseTemplateArg (templateArg : string) (ta : templateAliases)
  : templateAliases * option error :=
  let '(alias, pth) := splitArg templateArg in
  match Stat pth with
  | Err err => (ta, Some err)
  | Ok fi =>
      if IsDir fi then
        match ReadDir pth with
        | Err err => (ta, Some err)
        | Ok files =>
            (foldl (addEntry (dirPrefix alias pth) pth) ta files, None)
        end
      else if negb (String.eqb alias "") then (<[alias := pth]> ta, None)
      else (<[pth := pth]> ta, None)
  end.

(** The loop of [parseTemplateArgs] over the remaining arguments. *)
Fixpoint parseLoop (templateArgs : list string) (nested : templateAliases)
  : option templateAliases * option error :=
  match templateArgs with
  | [] => (Some nested, None)
  | templateArg :: rest =>
      let '(nested', err) := parseTemplateArg templateArg nested in
      match err with
      | Some e => (None, Some e)
      | None => parseLoop rest nested'
      end
  end.

(** [parseTemplateArgs]: [None] is the nil map. *)
Definition parseTemplateArgs (templateArgs : list string)
  : option templateAliases * option error :=
  parseLoop templateArgs ∅.

(** The error an argument resolves to, if any. *)
Definition argError (templateArg : string) : option error :=
  (parseTemplateArg templateArg ∅).2.

(** The aliases an argument produces on its own. *)
Definition produced (templateArg : string) : templateAliases :=
  (parseTemplateArg templateArg ∅).1.

(** The map after a run of arguments that all resolve: each argument
    overrides what the earlier ones left. *)
Definition overrideAll (nested : templateAliases) (args : list string) : templateAliases :=
  foldl (λ acc a, produced a ∪ acc) nested args.

(** An argument whose path cannot be resolved: [fs.Stat] fails, or the
    path is a directory and listing it fails. *)
Definition failsWith (templateArg : string) (e : error) : Prop :=
  Stat (splitArg templateArg).2 = Err e
  ∨ ∃ fi, Stat (splitArg templateArg).2 = Ok fi ∧ IsDir fi = true
          ∧ ReadDir (splitArg templateArg).2 = Err e.

(** An argument whose path exists and, if a directory, can be listed. *)
Definition resolves (templateArg : string) : Prop :=
  ∃ fi, Stat (splitArg templateArg).2 = Ok fi
        ∧ (IsDir fi = true → ∃ files, ReadDir (splitArg templateArg).2 = Ok files).

End Resolver.

(** Alias keys read to the letter: the prefix, a slash, the entry name. *)
Definition literalKey (prefix entry : string) : string :=
  prefix +:+ "/" +:+ entry.

(** The directory rule with keys read to the letter: every file listed in
    the directory is bound under [literalKey prefix name]. *)
Definition literal_key_rule : Prop :=
  ∀ (error : Type) (Stat : string → result error FileInfo)
    (ReadDir : string → result error (list FileInfo))
    (templateArg : string) (ta : templateAliases) fi files f,
    Stat (splitArg templateArg).2 = Ok fi → IsDir fi = true →
    ReadDir (splitArg templateArg).2 = Ok files →
    f ∈ files → IsDir f = false →
    (parseTemplateArg Stat ReadDir templateArg ta).1
      !! literalKey (if String.eqb (splitArg templateArg).1 ""
                     then (splitArg templateArg).2
                     else (splitArg templateArg).1) (Name f)
    = Some (GoPath.Join [(splitArg templateArg).2; Name f]).

End Aliases.

(** ** [gomplate.go]: rendering contexts, descriptors and destinations *)

#[local] Set Warnings "-register-all".

Section Values.
(** Go values the package never inspects (what a data source returns). *)
Variable value : Type.

(** An [interface{}] as the package tells its dynamic types apart:
    [IContext c] is a [*context] ([type context map[string]interface{}]),
    the mapping form of the rendering context. *)
Inductive iface : Type :=
  | INil
  | IString (s : string)
  | IContext (c : gmap string iface)
  | IValue (v : value).
End Values.
Arguments INil {value}.
Arguments IString {value} s.
Arguments IContext {value} c.
Arguments IValue {value} v.

(** A destination handle ([io.Writer]).  [Stdout] is the [os.Stdout] object,
    [File] any other [*os.File], [Buffer] a [*bytes.Buffer], and [Writer] a
    writer handed in by a caller, which may or may not be an [io.Closer].
    Two handles are the same handle when they are equal here. *)
Inductive writer : Type :=
  | Stdout
  | File (path : string)
  | Buffer
  | Writer (id : nat) (closer : bool).

#[global] Instance writer_eq_dec : EqDecision writer.
Proof. solve_decision. Defined.

(** The type switch [case io.Closer]. *)
Definition isCloser (t : writer) : bool :=
  match t with
  | Stdout => true
  | File _ => true
  | Buffer => false
  | Writer _ closer => closer
  end.

(** The fields of a [tplate] that [gomplate.go] uses. *)
Record tplate : Type := mkTplate {
  name : string;
  contents : string;
  target : writer
}.

(** The fields of [Config] that the two files read or set. *)
Record Config : Type := mkConfig {
  Input : string;
  InputFiles : list string;
  InputDir : string;
  ExcludeGlob : list string;
  OutputFiles : list string;
  OutputDir : string;
  OutputMap : string;
  OutMode : string;
  DataSources : list string;
  DataSourceHeaders : list string;
  Contexts : list string;
  LDelim : string;
  RDelim : string;
  Templates : list string
}.

(** Go's [int] counters: 64 bits, two's complement. *)
Definition wrapInt (z : Z) : Z := ((z + 2 ^ 63) mod 2 ^ 64 - 2 ^ 63)%Z.

(** The package-level [Metrics] object. *)
Record MetricsTempl : Type := mkMetrics {
  TemplatesGathered : Z;
  TemplatesProcessed : Z;
  Errors : Z;
  GatherDuration : Z;
  TotalRenderDuration : Z;
  RenderDuration : gmap string Z
}.

(** Modelled from the spec: [newMetrics] lives in a file that is not among
    the sources; the counters are reset at the start of each run. *)
Definition newMetrics : MetricsTempl :=
  {| TemplatesGathered := 0; TemplatesProcessed := 0; Errors := 0;
     GatherDuration := 0; TotalRenderDuration := 0; RenderDuration := ∅ |}.

(** What the package asks of its collaborators, in the order it asks. *)
Inductive event : Type :=
  | EvNewData
  | EvCleanup
  | EvCreateContext
  | EvGather
  | EvParse (t : tplate)
  | EvExecute (t : tplate)
  | EvClose (tg : writer).

#[global] Instance tplate_eq_dec : EqDecision tplate.
Proof. solve_decision. Defined.

#[global] Instance event_eq_dec : EqDecision event.
Proof. solve_decision. Defined.

(** ** State passing *)

Definition St (S A : Type) : Type := S → A * S.

#[global] Instance St_ret {S} : MRet (St S) := λ A a s, (a, s).

#[global] Instance St_bind {S} : MBind (St S) :=
  λ A B k m s, let '(a, s') := m s in k a s'.

(** Read the state through [f]; replace it through [f]. *)
Definition gets {S A} (f : S → A) : St S A := λ s, (f s, s).
Definition modify {S} (f : S → S) : St S unit := λ s, (tt, f s).

(** ** [gomplate.go]: the engine *)

Module Gomplate.
Section Engine.

(** Collaborators.  [ext] is everything outside the package that a call
    may read or change: the filesystem, the template namespace rooted at
    [g.rootTemplate], the clock. *)
Context {error value Data FuncMap template time ext : Type}.

(** The outside world, together with the record of the calls made into it. *)
Record world : Type := mkWorld {
  outside : ext;
  trace : list event
}.

(** [Metrics] is a package-level variable: part of the state of a run. *)
Record state : Type := mkState {
  io : world;
  Metrics : MetricsTempl;
  cleanupHooks : list Data
}.

Abbreviation IO := (St world).
Abbreviation M := (St state).

(** [rootTemplate], which [toGoTemplate] sets and shares between the
    descriptors, belongs to the template engine: it is part of [ext]. *)
Record gomplate : Type := mkGomplate {
  funcMap : FuncMap;
  leftDelim : string;
  rightDelim : string;
  nestedTemplates : templateAliases;
  context : iface value
}.

(** [fs.Stat] and [afero.ReadDir(fs, _)] in a given outside world. *)
Variable Stat : ext → string → result error FileInfo.
Variable ReadDir : ext → string → result error (list FileInfo).
(** [Funcs(d)], [data.NewData], [d.Cleanup] and [createContext]. *)
Variable Funcs : Data → FuncMap.
Variable NewData : list string → list string → ext → result error Data * ext.
Variable Cleanup : Data → ext → ext.
Variable createContext : list string → Data → ext → result error (iface value) * ext.
(** [o.defaults()]: the configuration after the call. *)
Variable defaults : Config → Config.
(** [t.toGoTemplate(g)], and [tmpl.Execute(target, ctx)], which also tells
    what it wrote to the target. *)
Variable toGoTemplate : tplate → gomplate → ext → result error template * ext.
Variable Execute : template → writer → iface value → ext → (string * option error) * ext.
(** [Close()] on a destination; its error is dropped by the caller. *)
Variable Close : writer → ext → ext.
(** [time.Now()] and [time.Since(start)]. *)
Variable now : ext → time.
Variable since : time → ext → Z.
(** [errors.Wrapf(err, "failed to render outputMap with ctx %+v and inPath %s", ctx, inPath)] *)
Variable Wrapf : error → gmap string (iface value) → string → error.
(** [gatherTemplates(o, namer)] *)
Variable gatherTemplates :
  Config → (string → IO (string * option error)) → IO (list tplate * option error).

(** A call out of the package: it acts on the outside world and is
    recorded. *)
Definition call {A} (ev : event) (f : ext → A * ext) : IO A :=
  λ w, let '(a, e) := f (outside w) in
       (a, {| outside := e; trace := trace w ++ [ev] |}).

Definition liftIO {A} (m : IO A) : M A :=
  λ s, let '(a, w) := m (io s) in
       (a, {| io := w; Metrics := Metrics s; cleanupHooks := cleanupHooks s |}).

Definition setMetrics (f : MetricsTempl → MetricsTempl) : M unit :=
  modify (λ s, {| io := io s; Metrics := f (Metrics s); cleanupHooks := cleanupHooks s |}).

Definition timeNow : M time := gets (λ s, now (outside (io s))).
Definition timeSince (start : time) : M Z := gets (λ s, since start (outside (io s))).

(** *** runTemplate *)
Definition runTemplate (g : gomplate) (t : tplate) : IO (option error) :=
  r ← call (EvParse t) (toGoTemplate t g);
  match r with
  | Err err => mret (Some err)
  | Ok tmpl =>
      let deferred : IO unit :=
        match isCloser (target t) with
        | true =>
            if bool_decide (target t ≠ Stdout)
            then call (EvClose (target t)) (λ e, (tt, Close (target t) e))
            else mret tt
        | false => mret tt
        end in
      '(_, err) ← call (EvExecute t) (Execute tmpl (target t) (context g));
      deferred;;
      mret err
  end.

(** *** newGomplate *)
Definition newGomplate (d : Data) (leftDelim rightDelim : string)
           (nested : templateAliases) (context : iface value) : gomplate :=
  {| leftDelim := leftDelim;
     rightDelim := rightDelim;
     funcMap := Funcs d;
     nestedTemplates := nested;
     context := context |}.

(** *** simpleNamer *)
Definition simpleNamer (outDir : string) : string → IO (string * option error) :=
  λ inPath,
    let outPath := GoFilepath.Join [outDir; inPath] in
    mret (GoFilepath.Clean outPath, None).

(** The loop [for k, v := range *c] of [mappingNamer]: the entries are
    visited in an order the language does not fix. *)
Definition copyEntries (c ctx : gmap string (iface value)) : gmap string (iface value) :=
  map_fold (λ k v ctx,
              if bool_decide (k ≠ "in") && bool_decide (k ≠ "ctx")
              then <[k := v]> ctx else ctx)
           ctx c.

(** The context [mappingNamer] executes the mapping template against. *)
Definition derivedContext (g : gomplate) (inPath : string) : gmap string (iface value) :=
  let ctx : gmap string (iface value) := ∅ in
  let ctx :=
    match context g with
    | IContext c => copyEntries c ctx
    | _ => ctx
    end in
  let ctx := <["ctx" := context g]> ctx in
  let ctx := <["in" := IString inPath]> ctx in
  ctx.

(** *** mappingNamer *)
Definition mappingNamer (outMap : string) (g : gomplate)
  : string → IO (string * option error) :=
  λ inPath,
    let out := Buffer in
    let t := {| name := "<OutputMap>"; contents := outMap; target := out |} in
    r ← call (EvParse t) (toGoTemplate t g);
    match r with
    | Err err => mret ("", Some err)
    | Ok tpl =>
        let ctx := derivedContext g inPath in
        '(written, err) ← call (EvExecute t) (Execute tpl (target t) (IContext ctx));
        match err with
        | Some err => mret ("", Some (Wrapf err ctx inPath))
        | None => mret (GoFilepath.Clean (GoStrings.TrimSpace written), None)
        end
    end.

(** *** chooseNamer *)
Definition chooseNamer (o : Config) (g : gomplate) : string → IO (string * option error) :=
  if String.eqb (OutputMap o) "" then simpleNamer (OutputDir o)
  else mappingNamer (OutputMap o) g.

(** *** runTemplates *)
Definition incErrors (m : MetricsTempl) : MetricsTempl :=
  {| TemplatesGathered := TemplatesGathered m;
     TemplatesProcessed := TemplatesProcessed m;
     Errors := wrapInt (Errors m + 1);
     GatherDuration := GatherDuration m;
     TotalRenderDuration := TotalRenderDuration m;
     RenderDuration := RenderDuration m |}.

Definition incTemplatesProcessed (m : MetricsTempl) : MetricsTempl :=
  {| TemplatesGathered := TemplatesGathered m;
     TemplatesProcessed := wrapInt (TemplatesProcessed m + 1);
     Errors := Errors m;
     GatherDuration := GatherDuration m;
     TotalRenderDuration := TotalRenderDuration m;
     RenderDuration := RenderDuration m |}.

Definition setTemplatesGathered (n : Z) (m : MetricsTempl) : MetricsTempl :=
  {| TemplatesGathered := n;
     TemplatesProcessed := TemplatesProcessed m;
     Errors := Errors m;
     GatherDuration := GatherDuration m;
     TotalRenderDuration := TotalRenderDuration m;
     RenderDuration := RenderDuration m |}.

Definition setGatherDuration (d : Z) (m : MetricsTempl) : MetricsTempl :=
  {| TemplatesGathered := TemplatesGathered m;
     TemplatesProcessed := TemplatesProcessed m;
     Errors := Errors m;
     GatherDuration := d;
     TotalRenderDuration := TotalRenderDuration m;
     RenderDuration := RenderDuration m |}.

Definition setTotalRenderDuration (d : Z) (m : MetricsTempl) : MetricsTempl :=
  {| TemplatesGathered := TemplatesGathered m;
     TemplatesProcessed := TemplatesProcessed m;
     Errors := Errors m;
     GatherDuration := GatherDuration m;
     TotalRenderDuration := d;
     RenderDuration := RenderDuration m |}.

Definition setRenderDuration (k : string) (d : Z) (m : MetricsTempl) : MetricsTempl :=
  {| TemplatesGathered := TemplatesGathered m;
     TemplatesProcessed := TemplatesProcessed m;
     Errors := Errors m;
     GatherDuration := GatherDuration m;
     TotalRenderDuration := TotalRenderDuration m;
     RenderDuration := <[k := d]> (RenderDuration m) |}.

(** The loop [for _, t := range tmpl] of [runTemplates]. *)
Fixpoint renderLoop (g : gomplate) (tmpl : list tplate) : M (option error) :=
  match tmpl with
  | [] => mret None
  | t :: rest =>
      tstart ← timeNow;
      err ← liftIO (runTemplate g t);
      d ← timeSince tstart;
      setMetrics (setRenderDuration (name t) d);;
      match err with
      | Some err =>
          setMetrics incErrors;;
          mret (Some err)
      | None =>
          setMetrics incTemplatesProcessed;;
          renderLoop g rest
      end
  end.

(** The call [gatherTemplates(o, chooseNamer(o, g))]. *)
Definition gathered (g : gomplate) (o : Config) : IO (list tplate * option error) :=
  call EvGather (λ e, (tt, e));;
  gatherTemplates o (chooseNamer o g).

Definition runTemplates (g : gomplate) (o : Config) : M (option error) :=
  start ← timeNow;
  '(tmpl, err) ← liftIO (gathered g o);
  d ← timeSince start;
  setMetrics (setGatherDuration d);;
  match err with
  | Some err =>
      setMetrics incErrors;;
      mret (Some err)
  | None =>
      setMetrics (setTemplatesGathered (Z.of_nat (length tmpl)));;
      start ← timeNow;
      r ← renderLoop g tmpl;
      (* deferred *)
      d ← timeSince start;
      setMetrics (setTotalRenderDuration d);;
      mret r
  end.

(** Modelled from the spec: the cleanup hooks live in a file that is not
    among the sources.  They are an ordered list of release actions
    accumulated during setup and invoked in reverse order on every exit
    path of the run: [addCleanupHook] appends to the list, and
    [runCleanupHooks] invokes the hook registered last first.  The spec
    names no step that empties the list, so the list is left as it is once
    the hooks have run. *)
Definition addCleanupHook (d : Data) : M unit :=
  modify (λ s, {| io := io s; Metrics := Metrics s;
                  cleanupHooks := cleanupHooks s ++ [d] |}).

(** The hooks of [hooks], given in registration order, from the last one
    to the first. *)
Fixpoint runHooks (hooks : list Data) : IO unit :=
  match hooks with
  | [] => mret tt
  | d :: rest =>
      runHooks rest;;
      call EvCleanup (λ e, (tt, Cleanup d e))
  end.

Definition runCleanupHooks : M unit :=
  hooks ← gets cleanupHooks;
  liftIO (runHooks hooks).

(** *** RunTemplates *)
Definition RunTemplates (o : Config) : M (option error) :=
  setMetrics (λ _, newMetrics);;
  r ← (let o := defaults o in
       let ds := DataSources o ++ Contexts o in
       r ← liftIO (call EvNewData (NewData ds (DataSourceHeaders o)));
       match r with
       | Err err => mret (Some err)
       | Ok d =>
           addCleanupHook d;;
           fs ← gets (λ s, outside (io s));
           let '(nested, err) :=
             Aliases.parseTemplateArgs (Stat fs) (ReadDir fs) (Templates o) in
           match err with
           | Some err => mret (Some err)
           | None =>
               r ← liftIO (call EvCreateContext (createContext (Contexts o) d));
               match r with
               | Err err => mret (Some err)
               | Ok c =>
                   let g := newGomplate d (LDelim o) (RDelim o)
                                        (default ∅ nested) c in
                   runTemplates g o
               end
           end
       end);
  (* deferred *)
  runCleanupHooks;;
  mret r.

(** *** Runs used to state the properties *)

(** Rendering descriptors one after another, keeping every outcome. *)
Fixpoint renderEach (g : gomplate) (tmpl : list tplate) : IO (list (option error)) :=
  match tmpl with
  | [] => mret []
  | t :: rest =>
      r ← runTemplate g t;
      rs ← renderEach g rest;
      mret (r :: rs)
  end.

(** Asking a namer for the destination of each input in turn. *)
Fixpoint nameEach (namer : string → IO (string * option error)) (inputs : list string)
  : IO (list (string * option error)) :=
  match inputs with
  | [] => mret []
  | i :: rest =>
      r ← namer i;
      rs ← nameEach namer rest;
      mret (r :: rs)
  end.

End Engine.
End Gomplate.
Export Gomplate.

(** The number of template compilations ([toGoTemplate] calls) in a trace. *)
Definition isParse (ev : event) : bool :=
  match ev with EvParse _ => true | _ => false end.

Definition parses (tr : list event) : nat := length (filter isParse tr).

(** The mapping template read as compiled once: however many inputs the
    dynamic namer is asked about, one compilation is recorded. *)
Definition compiled_once_rule : Prop :=
  ∀ (error value FuncMap template ext : Type)
    (toGoTemplate : tplate → @gomplate value FuncMap → ext → result error template * ext)
    (Execute : template → writer → iface value → ext → (string * option error) * ext)
    (Wrapf : error → gmap string (iface value) → string → error)
    (outMap : string) (g : gomplate) (inputs : list string) (w : world),
    inputs ≠ [] →
    parses (trace ((nameEach (mappingNamer toGoTemplate Execute Wrapf outMap g) inputs w).2))
    = (parses (trace w) + 1)%nat.

(** ** [cmd/gomplate/main.go]: option validation *)

Module MainOpts.

(** [%d] of a length. *)
Definition itoa (n : nat) : string := NilEmpty.string_of_uint (Nat.to_uint n).

(** [validateOpts]: [Changed f] is [cmd.Flag(f).Changed], [opts] the
    package-level options; the returned error is its message. *)
Definition validateOpts (Changed : string → bool) (opts : Config) : option string :=
  if Changed "in" && Changed "file" then
    Some "--in and --file may not be used together"
  else if negb (length (InputFiles opts) =? length (OutputFiles opts))%nat then
    Some ("must provide same number of --out (" +:+ itoa (length (OutputFiles opts))
          +:+ ") as --file (" +:+ itoa (length (InputFiles opts)) +:+ ") options")
  else if Changed "input-dir" && (Changed "in" || Changed "file") then
    Some "--input-dir can not be used together with --in or --file"
  else if Changed "output-dir" && Changed "out" then
    Some "--output-dir can not be used together with --out"
  else if Changed "output-dir" && negb (Changed "input-dir") then
    Some "--input-dir must be set when --output-dir is set"
  else if Changed "output-map" && (Changed "out" || Changed "output-dir") then
    Some "--output-map can not be used together with --out or --output-dir"
  else if Changed "output-map" && negb (Changed "input-dir") then
    Some "--input-dir must be set when --output-map is set"
  else None.

End MainOpts.

(** The descriptors compiled ([toGoTemplate] calls) in a trace, in order. *)
Definition parsed (tr : list event) : list tplate :=
  omap (λ ev, match ev with EvParse t => Some t | _ => None end) tr.

(** ** [gomplate.go]: rendering one template *)

(** [Options]: the fields [RenderTemplate] reads. *)
Module Options.
Record t : Type := mk { LDelim : string; RDelim : string }.
End Options.

Module Render.
Section RenderTemplate.

Context {error value Data FuncMap template reader ext : Type}.
Variable Funcs : Data → FuncMap.
Variable NewData : list string → list string → ext → result error Data * ext.
Variable Cleanup : Data → ext → ext.
Variable toGoTemplate : tplate → @gomplate value FuncMap → ext → result error template * ext.
Variable Execute : template → writer → iface value → ext → (string * option error) * ext.
Variable Close : writer → ext → ext.
(** [ioutil.ReadAll(in)] *)
Variable ReadAll : reader → ext → result error string * ext.

(** A call out of the package that the trace has no event for. *)
Definition quiet {A} (f : ext → A * ext) : St (@world ext) A :=
  λ w, let '(a, e) := f (outside w) in
       (a, {| outside := e; trace := trace w |}).

(** [RenderTemplate]: [opts] is [None] for a nil pointer. *)
Definition RenderTemplate (in_ : reader) (out : writer) (opts : option Options.t)
  : St (@state Data ext) (option error) :=
  let opts :=
    match opts with
    | None => {| Options.LDelim := ""; Options.RDelim := "" |}
    | Some opts => opts
    end in
  r ← liftIO (call EvNewData (NewData [] []));
  match r with
  | Err err => mret (Some err)
  | Ok d =>
      addCleanupHook d;;
      r ← (i ← liftIO (quiet (ReadAll in_));
           match i with
           | Err err => mret (Some err)
           | Ok i =>
               let g := newGomplate Funcs d (Options.LDelim opts) (Options.RDelim opts)
                                    ∅ INil in
               let t := {| name := ""; contents := i; target := out |} in
               err ← liftIO (runTemplate toGoTemplate Execute Close g t);
               match err with
               | Some err => mret (Some err)
               | None => mret None
               end
           end);
      (* deferred *)
      runCleanupHooks Cleanup;;
      mret r
  end.

End RenderTemplate.
End Render.

(** ** Paths read element by element

    What [path.Clean] computes, told on the elements of a path (the text
    between slashes) instead of on its bytes. *)

Module PathModel.
Import GoPath.

(** The elements of a path. *)
Fixpoint split (p : list ascii) : list (list ascii) :=
  match p with
  | [] => [[]]
  | c :: rest =>
      if isSlash c then [] :: split rest
      else match split rest with
           | h :: t => (c :: h) :: t
           | [] => [[c]]
           end
  end.

Definition isDotSeg (s : list ascii) : bool :=
  match s with
  | [c] => isDot c
  | _ => false
  end.

Definition isDotDotSeg (s : list ascii) : bool :=
  match s with
  | [c1; c2] => isDot c1 && isDot c2
  | _ => false
  end.

(** A cleaned path in the making: the number of leading [..] elements and
    the names after them, innermost first. *)
Definition stack : Type := nat * list (list ascii).

(** One element: empty and [.] elements are dropped, [..] removes the
    innermost name, or is kept in front when there is none and the path is
    not rooted, and any other element is a name. *)
Definition step (rooted : bool) (st : stack) (seg : list ascii) : stack :=
  match seg with
  | [] => st
  | _ :: _ =>
      if isDotSeg seg then st
      else if isDotDotSeg seg then
        match st.2 with
        | _ :: names => (st.1, names)
        | [] => if rooted then st else (S st.1, [])
        end
      else (st.1, seg :: st.2)
  end.

Definition elements (st : stack) : list (list ascii) :=
  replicate st.1 [dot; dot] ++ rev st.2.

(** [strings.Join(_, "/")] on bytes. *)
Fixpoint joinSegs (l : list (list ascii)) : list ascii :=
  match l with
  | [] => []
  | [s] => s
  | s :: rest => s ++ slash :: joinSegs rest
  end.

Definition render (rooted : bool) (st : stack) : list ascii :=
  (if rooted then [slash] else []) ++ joinSegs (elements st).

(** The length of the part of the buffer that [..] never removes: the
    root, or the leading [..] elements. *)
Definition ddlen (rooted : bool) (dd : nat) : nat :=
  length (render rooted (dd, [])).

(** The cleaned path of the elements of [p]. *)
Definition cleaned (rooted : bool) (p : list ascii) : list ascii :=
  render rooted (foldl (step rooted) (0%nat, []) (split p)).

(** A name: not empty, without a slash, and neither [.] nor [..]. *)
Definition isName (s : list ascii) : Prop :=
  s ≠ [] ∧ (slash ∉ s) ∧ isDotSeg s = false ∧ isDotDotSeg s = false.

(** A path in clean form: what [render] gives for names below leading
    [..] elements, which a rooted path has none of. *)
Definition cleanForm (rooted : bool) (st : stack) : Prop :=
  Forall isName st.2 ∧ (rooted = true → st.1 = 0%nat).

End PathModel.

(** ** A small concrete instance

    A filesystem with one directory and two files, and a toy template
    engine, to run the definitions on. *)

Module Demo.

Definition file (n : string) : FileInfo := {| Name := n; IsDir := false |}.
Definition dir (n : string) : FileInfo := {| Name := n; IsDir := true |}.

Definition Stat (p : string) : result string FileInfo :=
  if String.eqb p "./tpl" || String.eqb p "tpl" then Ok (dir "tpl")
  else if String.eqb p "one.t" || String.eqb p "two.t" then Ok (file p)
  else Err ("stat " +:+ p +:+ ": no such file or directory").

Definition ReadDir (p : string) : result string (list FileInfo) :=
  if String.eqb p "./tpl" || String.eqb p "tpl"
  then Ok [file "a.t"; dir "sub"; file "b.t"]
  else Err ("readdir " +:+ p +:+ ": not a directory").

Definition toGoTemplate (t : tplate) (g : @gomplate unit unit) (e : nat)
  : result string string * nat :=
  (if String.eqb (contents t) "{{" then Err "unclosed action" else Ok (contents t), S e).

Definition Execute (tmpl : string) (tg : writer) (ctx : iface unit) (e : nat)
  : (string * option string) * nat :=
  if String.eqb tmpl "{{fail}}" then (("", Some "exec failed"), S e)
  else if String.eqb tmpl "{{.in}}.out" then
    match ctx with
    | IContext c =>
        match c !! "in" with
        | Some (IString s) => ((" " +:+ s +:+ ".out ", None), S e)
        | _ => (("", Some "no value for in"), S e)
        end
    | _ => (("", Some "no value for in"), S e)
    end
  else ((tmpl, None), S e).

Definition Close (tg : writer) (e : nat) : nat := S e.
Definition now (e : nat) : Z := Z.of_nat e.
Definition since (start : Z) (e : nat) : Z := (Z.of_nat e - start)%Z.
Definition Wrapf (err : string) (ctx : gmap string (iface unit)) (inPath : string) : string :=
  "failed to render outputMap with inPath " +:+ inPath +:+ ": " +:+ err.
Definition Funcs (d : unit) : unit := tt.
Definition NewData (ds hs : list string) (e : nat) : result string unit * nat := (Ok tt, S e).
Definition Cleanup (d : unit) (e : nat) : nat := S e.
Definition createContext (cs : list string) (d : unit) (e : nat)
  : result string (iface unit) * nat := (Ok (IContext ∅), S e).
Definition defaults (o : Config) : Config := o.

(** One descriptor per input file, written to the file the namer names. *)
Fixpoint gatherFiles (namer : string → St (@world nat) (string * option string))
         (files : list string) : St (@world nat) (list tplate * option string) :=
  match files with
  | [] => mret ([], None)
  | f :: rest =>
      '(out, err) ← namer f;
      match err with
      | Some e => mret ([], Some e)
      | None =>
          '(ts, err) ← gatherFiles namer rest;
          match err with
          | Some e => mret ([], Some e)
          | None => mret ({| name := f; contents := f; target := File out |} :: ts, None)
          end
      end
  end.

Definition gatherTemplates (o : Config)
           (namer : string → St (@world nat) (string * option string))
  : St (@world nat) (list tplate * option string) :=
  gatherFiles namer (InputFiles o).

Definition config (files templates : list string) (outMap : string) : Config :=
  {| Input := ""; InputFiles := files; InputDir := "in"; ExcludeGlob := [];
     OutputFiles := []; OutputDir := "out"; OutputMap := outMap; OutMode := "";
     DataSources := []; DataSourceHeaders := []; Contexts := [];
     LDelim := "{{"; RDelim := "}}"; Templates := templates |}.

Definition g0 : @gomplate unit unit :=
  {| funcMap := tt; leftDelim := "{{"; rightDelim := "}}";
     nestedTemplates := ∅; context := IContext {["X" := IString "x"]} |}.

Definition w0 : @world nat := {| outside := 0%nat; trace := [] |}.

Definition s0 : @state unit nat :=
  {| io := w0; Metrics := newMetrics; cleanupHooks := [] |}.

(** Three templates, the second of which fails to execute. *)
Definition three : Config := config ["one"; "{{fail}}"; "three"] [] "".

Definition descriptor (f : string) : tplate :=
  {| name := f; contents := f; target := File ("out/" +:+ f) |}.

(** A template-alias argument that names a path that does not exist. *)
Definition badAlias : Config := config ["one"] ["x=one.t"; "nope"; "tpl"] "".

(** More of the instance: a directory that holds no file, the directory
    [tpl] under two more spellings, collaborators that fail, and a reader. *)
Definition StatMore (p : string) : result string FileInfo :=
  if String.eqb p "empty" then Ok (dir "empty")
  else if String.eqb p "tpl/" then Ok (dir "tpl")
  else Stat p.

Definition ReadDirMore (p : string) : result string (list FileInfo) :=
  if String.eqb p "empty" then Ok [dir "sub"]
  else if String.eqb p "tpl/" then ReadDir "tpl"
  else ReadDir p.

Definition NewDataFail (ds hs : list string) (e : nat) : result string unit * nat :=
  (Err "no such datasource", S e).


Definition ReadAll (r : string) (e : nat) : result string string * nat := (Ok r, S e).


(** [--file] and [--out] given, twice and once. *)
Definition changedFileOut (f : string) : bool :=
  String.eqb f "file" || String.eqb f "out".

Definition twoFilesOneOut : Config :=
  {| Input := ""; InputFiles := ["a"; "b"]; InputDir := ""; ExcludeGlob := [];
     OutputFiles := ["o"]; OutputDir := "."; OutputMap := ""; OutMode := "";
     DataSources := []; DataSourceHeaders := []; Contexts := [];
     LDelim := "{{"; RDelim := "}}"; Templates := [] |}.

(** A mapping template that does not compile. *)
Definition badMap : Config := config ["one"] [] "{{".

End Demo.

(** * Properties *)

(** ** Include globs *)

Module MainSpec.
Import Main.

Lemma setIndex_middle (pre post : list string) (old v : string) :
  setIndex (pre ++ old :: post) (length pre) v = Some (pre ++ v :: post).
Proof.
  unfold setIndex. rewrite decide_True.
  - f_equal. by rewrite insert_app_r_alt, Nat.sub_diag by lia.
  - rewrite length_app. simpl. lia.
Qed.

Lemma fillIncludes_replicate (includes pre : list string) (i : nat) :
  length pre = (i + 1)%nat →
  fillIncludes i includes (pre ++ replicate (length includes) "")
  = Some (pre ++ map (String.append "!") includes).
Proof.
  revert pre i. induction includes as [|inc rest IH]; intros pre i Hlen.
  - cbn [fillIncludes length replicate map]. by rewrite !app_nil_r.
  - cbn [fillIncludes length replicate map].
    rewrite <- Hlen, setIndex_middle. cbn [mbind option_bind].
    rewrite (cons_middle _ pre), app_assoc.
    rewrite (IH (pre ++ ["!" +:+ inc]) (S i)).
    + by rewrite <- app_assoc.
    + rewrite length_app. simpl. lia.
Qed.

(** C5: [processIncludes I X] never indexes out of range; it is [X] when
    [I] is empty, and otherwise the blanket exclude ["*"], then ["!"]
    prepended to each include in order, then the excludes in order. *)
Theorem processIncludes_precedence (includes excludes : list string) :
  processIncludes includes excludes
  = Some (match includes with
          | [] => excludes
          | _ :: _ => "*" :: map (String.append "!") includes ++ excludes
          end).
Proof.
  unfold processIncludes. destruct includes as [|inc rest]; [done|].
  change (0 <? length (inc :: rest))%nat with true. cbv iota.
  change (1 + length (inc :: rest))%nat with (S (length (inc :: rest))).
  change (replicate (S (length (inc :: rest))) "")
    with ([] ++ "" :: replicate (length (inc :: rest)) "").
  change 0%nat with (@length string []) at 1.
  rewrite (setIndex_middle [] _ "" "*"). cbn [mbind option_bind].
  change ([] ++ "*" :: replicate (length (inc :: rest)) "")
    with (["*"] ++ replicate (length (inc :: rest)) "").
  change (@length string []) with 0%nat.
  rewrite (fillIncludes_replicate (inc :: rest) ["*"] 0 eq_refl).
  reflexivity.
Qed.

End MainSpec.

(** ** The alias resolver *)

Module AliasSpec.
Import Aliases.

Section Resolver.
Context {error : Type}.
Variable Stat : string → result error FileInfo.
Variable ReadDir : string → result error (list FileInfo).

Local Abbreviation parseTemplateArg := (parseTemplateArg Stat ReadDir).
Local Abbreviation parseLoop := (parseLoop Stat ReadDir).
Local Abbreviation parseTemplateArgs := (parseTemplateArgs Stat ReadDir).
Local Abbreviation argError := (argError Stat ReadDir).
Local Abbreviation produced := (produced Stat ReadDir).
Local Abbreviation overrideAll := (overrideAll Stat ReadDir).
Local Abbreviation resolves := (resolves Stat ReadDir).
Local Abbreviation failsWith := (failsWith Stat ReadDir).

(** *** One argument acts on the map by overriding it *)

Lemma addEntry_union prefix pth (m ta : templateAliases) f :
  addEntry prefix pth (m ∪ ta) f = addEntry prefix pth m f ∪ ta.
Proof.
  unfold addEntry. destruct (negb (IsDir f)); [|done].
  by rewrite insert_union_l.
Qed.

Lemma foldl_addEntry_union prefix pth files (m ta : templateAliases) :
  foldl (addEntry prefix pth) (m ∪ ta) files
  = foldl (addEntry prefix pth) m files ∪ ta.
Proof.
  revert m. induction files as [|f files IH]; intros m; [done|].
  cbn [foldl]. by rewrite addEntry_union, IH.
Qed.

Lemma parseTemplateArg_override templateArg (ta : templateAliases) :
  parseTemplateArg templateArg ta
  = match argError templateArg with
    | Some e => (ta, Some e)
    | None => (produced templateArg ∪ ta, None)
    end.
Proof.
  unfold Aliases.argError, Aliases.produced, Aliases.parseTemplateArg.
  destruct (splitArg templateArg) as [alias pth].
  destruct (Stat pth) as [fi|e]; [|done].
  destruct (IsDir fi).
  - destruct (ReadDir pth) as [files|e]; [|done].
    cbn [fst snd]. f_equal.
    rewrite <- foldl_addEntry_union. by rewrite (left_id ∅ (∪)).
  - destruct (negb (String.eqb alias "")); cbn [fst snd]; f_equal;
      by rewrite <- insert_union_l, (left_id ∅ (∪)).
Qed.

(** *** The loop over the arguments *)

Lemma parseLoop_ok args (nested : templateAliases) :
  Forall (λ a, argError a = None) args →
  parseLoop args nested = (Some (overrideAll nested args), None).
Proof.
  revert nested. induction args as [|a args IH]; intros nested Hall; [done|].
  apply Forall_cons in Hall as [Ha Hall].
  cbn [Aliases.parseLoop]. rewrite parseTemplateArg_override, Ha.
  by rewrite IH.
Qed.

Lemma parseLoop_first_error pre a post e (nested : templateAliases) :
  Forall (λ b, argError b = None) pre →
  argError a = Some e →
  parseLoop (pre ++ a :: post) nested = (None, Some e).
Proof.
  revert nested. induction pre as [|b pre IH]; intros nested Hall Ha.
  - cbn [app Aliases.parseLoop]. by rewrite parseTemplateArg_override, Ha.
  - apply Forall_cons in Hall as [Hb Hall].
    cbn [app Aliases.parseLoop]. rewrite parseTemplateArg_override, Hb.
    by apply IH.
Qed.

Lemma overrideAll_app nested l1 l2 :
  overrideAll nested (l1 ++ l2) = overrideAll (overrideAll nested l1) l2.
Proof. apply foldl_app. Qed.

Lemma overrideAll_untouched (k : string) args (nested : templateAliases) :
  Forall (λ b, produced b !! k = None) args →
  overrideAll nested args !! k = nested !! k.
Proof.
  revert nested. induction args as [|a args IH]; intros nested Hall; [done|].
  apply Forall_cons in Hall as [Ha Hall].
  unfold Aliases.overrideAll. cbn [foldl]. fold (overrideAll (produced a ∪ nested) args).
  rewrite IH by done. by rewrite lookup_union_r.
Qed.

Lemma overrideAll_last (k v : string) pre a post (nested : templateAliases) :
  produced a !! k = Some v →
  Forall (λ b, produced b !! k = None) post →
  overrideAll nested (pre ++ a :: post) !! k = Some v.
Proof.
  intros Ha Hpost.
  rewrite overrideAll_app. unfold Aliases.overrideAll at 1. cbn [foldl].
  fold (overrideAll (produced a ∪ overrideAll nested pre) post).
  rewrite overrideAll_untouched by done.
  by apply lookup_union_Some_l.
Qed.

(** *** Directory listings *)

Lemma foldl_addEntry_snoc prefix pth files f (ta : templateAliases) :
  foldl (addEntry prefix pth) ta (files ++ [f])
  = addEntry prefix pth (foldl (addEntry prefix pth) ta files) f.
Proof. by rewrite foldl_app. Qed.

Lemma listing_registered prefix pth files (ta : templateAliases) f :
  f ∈ files → IsDir f = false →
  is_Some (foldl (addEntry prefix pth) ta files !! GoPath.Join [prefix; Name f]).
Proof.
  induction files as [|f0 files IH] using rev_ind; intros Hin Hfile.
  - by apply elem_of_nil in Hin.
  - rewrite foldl_addEntry_snoc. unfold addEntry at 1.
    apply elem_of_app in Hin as [Hin|Hin].
    + specialize (IH Hin Hfile).
      destruct (negb (IsDir f0)); [|done].
      rewrite lookup_insert_is_Some.
      destruct (decide (GoPath.Join [prefix; Name f0] = GoPath.Join [prefix; Name f]));
        [by left|by right].
    + apply list_elem_of_singleton in Hin as ->.
      rewrite Hfile. cbn [negb]. rewrite lookup_insert_eq. by eexists.
Qed.

Lemma listing_value prefix pth files (ta : templateAliases) i f :
  files !! i = Some f → IsDir f = false →
  (∀ j f', (i < j)%nat → files !! j = Some f' → IsDir f' = false →
           GoPath.Join [prefix; Name f'] ≠ GoPath.Join [prefix; Name f]) →
  foldl (addEntry prefix pth) ta files !! GoPath.Join [prefix; Name f]
  = Some (GoPath.Join [pth; Name f]).
Proof.
  revert i f.
  induction files as [|f0 files IH] using rev_ind; intros i f Hi Hfile Hlater.
  - by rewrite lookup_nil in Hi.
  - rewrite foldl_addEntry_snoc. unfold addEntry at 1.
    destruct (decide (i < length files)%nat) as [Hlt|Hge].
    + rewrite lookup_app_l in Hi by done.
      destruct (IsDir f0) eqn:Hd0; cbn [negb].
      * apply (IH i f Hi Hfile). intros j f' Hij Hj Hf'.
        apply (Hlater j f' Hij); [|done]. by apply lookup_app_l_Some.
      * rewrite lookup_insert_ne.
        -- apply (IH i f Hi Hfile). intros j f' Hij Hj Hf'.
           apply (Hlater j f' Hij); [|done]. by apply lookup_app_l_Some.
        -- apply (Hlater (length files) f0 Hlt); [|done].
           by rewrite list_lookup_middle.
    + rewrite lookup_app_r in Hi by lia.
      destruct (i - length files)%nat eqn:Hidx; [|by destruct n].
      injection Hi as ->. rewrite Hfile. cbn [negb]. by rewrite lookup_insert_eq.
Qed.

Lemma listing_nothing_else prefix pth files (ta : templateAliases) k :
  (∀ f, f ∈ files → IsDir f = false → k ≠ GoPath.Join [prefix; Name f]) →
  foldl (addEntry prefix pth) ta files !! k = ta !! k.
Proof.
  induction files as [|f0 files IH] using rev_ind; intros Hk; [done|].
  rewrite foldl_addEntry_snoc. unfold addEntry at 1.
  destruct (IsDir f0) eqn:Hd0; cbn [negb].
  - apply IH. intros f Hin. apply Hk, elem_of_app. by left.
  - rewrite lookup_insert_ne.
    + apply IH. intros f Hin. apply Hk, elem_of_app. by left.
    + intros Heq. refine (Hk f0 _ Hd0 (eq_sym Heq)).
      apply elem_of_app. right. by apply list_elem_of_singleton.
Qed.

(** *** Resolution outcomes *)

Lemma resolves_argError a : resolves a → argError a = None.
Proof.
  intros (fi & HS & HR).
  unfold Aliases.argError, Aliases.parseTemplateArg.
  destruct (splitArg a) as [alias pth]. cbn [snd] in HS, HR. rewrite HS.
  destruct (IsDir fi).
  - destruct (HR eq_refl) as [files ->]. done.
  - by destruct (negb (String.eqb alias "")).
Qed.

Lemma failsWith_argError a e : failsWith a e → argError a = Some e.
Proof.
  unfold Aliases.failsWith, Aliases.argError, Aliases.parseTemplateArg.
  destruct (splitArg a) as [alias pth]. cbn [snd].
  intros [HS|(fi & HS & Hd & HR)]; rewrite HS; [done|].
  by rewrite Hd, HR.
Qed.

Lemma dirPrefix_eq alias pth :
  dirPrefix alias pth = if String.eqb alias "" then pth else alias.
Proof. unfold dirPrefix. by destruct (String.eqb alias ""). Qed.

Lemma parseTemplateArg_directory templateArg (ta : templateAliases) fi files :
  Stat (splitArg templateArg).2 = Ok fi → IsDir fi = true →
  ReadDir (splitArg templateArg).2 = Ok files →
  parseTemplateArg templateArg ta
  = (foldl (addEntry (if String.eqb (splitArg templateArg).1 ""
                      then (splitArg templateArg).2
                      else (splitArg templateArg).1)
                     (splitArg templateArg).2) ta files, None).
Proof.
  unfold Aliases.parseTemplateArg.
  destruct (splitArg templateArg) as [alias pth]. cbn [fst snd].
  intros -> -> ->. by rewrite dirPrefix_eq.
Qed.

(** A key under a non-empty prefix is the cleaned [prefix/name]. *)
Lemma Join_prefix_clean (prefix entry : string) :
  prefix ≠ "" →
  GoPath.Join [prefix; entry] = GoPath.Clean (prefix +:+ "/" +:+ entry).
Proof.
  intros Hne. cbn [GoPath.Join].
  destruct (String.eqb_spec prefix "") as [->|_]; [done|].
  reflexivity.
Qed.

(** C4 (amended): for an argument whose path is a directory, resolution
    succeeds and changes the map for the directory's immediate
    non-directory entries and nothing else: every such entry is bound
    under the key [path.Join(prefix, name)], the cleaned form of
    [prefix/name]; the binding left under that key is
    [path.Join(pth, name)] of the last entry with that key; every other
    key, the sub-directories' included, keeps what it had.  The prefix
    is the alias when it is not empty and the directory path otherwise. *)
Theorem directory_aliases_one_level templateArg (ta : templateAliases) fi files :
  Stat (splitArg templateArg).2 = Ok fi → IsDir fi = true →
  ReadDir (splitArg templateArg).2 = Ok files →
  let alias := (splitArg templateArg).1 in
  let pth := (splitArg templateArg).2 in
  let prefix := if String.eqb alias "" then pth else alias in
  let ta' := (parseTemplateArg templateArg ta).1 in
  (parseTemplateArg templateArg ta).2 = None
  ∧ (∀ f, f ∈ files → IsDir f = false →
          is_Some (ta' !! GoPath.Join [prefix; Name f]))
  ∧ (∀ i f, files !! i = Some f → IsDir f = false →
            (∀ j f', (i < j)%nat → files !! j = Some f' → IsDir f' = false →
                     GoPath.Join [prefix; Name f'] ≠ GoPath.Join [prefix; Name f]) →
            ta' !! GoPath.Join [prefix; Name f] = Some (GoPath.Join [pth; Name f]))
  ∧ (∀ k, (∀ f, f ∈ files → IsDir f = false → k ≠ GoPath.Join [prefix; Name f]) →
          ta' !! k = ta !! k).
Proof.
  intros HS Hd HR alias pth prefix ta'. subst ta'.
  rewrite (parseTemplateArg_directory _ _ _ _ HS Hd HR). cbn [fst snd].
  fold alias pth prefix. split; [done|]. split; [|split].
  - intros f. apply listing_registered.
  - intros i f. apply listing_value.
  - intros k. apply listing_nothing_else.
Qed.

(** C8: when every argument resolves, duplicate keys are no error, and a
    key produced by two arguments is bound to the path from the later
    one, provided no argument after it produces the key again. *)
Theorem alias_last_wins (l1 l2 l3 : list string) (a1 a2 k v1 v2 : string) :
  Forall resolves (l1 ++ a1 :: l2 ++ a2 :: l3) →
  produced a1 !! k = Some v1 →
  produced a2 !! k = Some v2 →
  Forall (λ b, produced b !! k = None) l3 →
  ∃ m : templateAliases,
    parseTemplateArgs (l1 ++ a1 :: l2 ++ a2 :: l3) = (Some m, None)
    ∧ m !! k = Some v2.
Proof.
  intros Hall _ H2 Hl3.
  eexists. split.
  - apply parseLoop_ok. eapply Forall_impl; [exact Hall|].
    intros a. apply resolves_argError.
  - change (l1 ++ a1 :: l2 ++ a2 :: l3) with (l1 ++ (a1 :: l2) ++ a2 :: l3).
    rewrite app_assoc. by eapply overrideAll_last.
Qed.

(** *** Splitting an argument *)

Lemma cut_None sep s :
  GoStrings.cut sep s = None ↔ sep ∉ list_ascii_of_string s.
Proof.
  induction s as [|c s IH]; cbn [GoStrings.cut list_ascii_of_string].
  - split; [intros _; apply not_elem_of_nil|done].
  - destruct (Ascii.eqb_spec c sep) as [->|Hne].
    + split; [done|]. intros H. exfalso. apply H, list_elem_of_here.
    + rewrite not_elem_of_cons.
      destruct (GoStrings.cut sep s) as [[a b]|].
      * split; [done|]. intros [_ H]. by apply IH in H.
      * split; [|done]. intros _. split; [congruence|]. by apply IH.
Qed.

Lemma cut_Some sep s a b :
  GoStrings.cut sep s = Some (a, b) →
  s = a +:+ String sep b ∧ sep ∉ list_ascii_of_string a.
Proof.
  revert a. induction s as [|c s IH]; intros a; cbn [GoStrings.cut]; [done|].
  destruct (Ascii.eqb_spec c sep) as [->|Hne].
  - intros [= <- <-]. split; [done|]. apply not_elem_of_nil.
  - destruct (GoStrings.cut sep s) as [[a' b']|]; [|done].
    intros [= <- <-]. destruct (IH a' eq_refl) as [-> Hnot].
    split; [done|]. cbn [list_ascii_of_string]. rewrite not_elem_of_cons.
    split; [congruence|done].
Qed.

Lemma cut_app sep a b :
  sep ∉ list_ascii_of_string a →
  GoStrings.cut sep (a +:+ String sep b) = Some (a, b).
Proof.
  induction a as [|c a IH]; cbn [list_ascii_of_string].
  - intros _. change (GoStrings.cut sep (String sep b) = Some ("", b)).
    cbn [GoStrings.cut]. by rewrite Ascii.eqb_refl.
  - rewrite not_elem_of_cons. intros [Hne Hnot].
    change (GoStrings.cut sep (String c (a +:+ String sep b)) = Some (String c a, b)).
    cbn [GoStrings.cut].
    destruct (Ascii.eqb_spec c sep) as [->|_]; [done|]. by rewrite IH.
Qed.

Lemma splitArg_bare arg :
  "="%char ∉ list_ascii_of_string arg → splitArg arg = ("", arg).
Proof.
  intros H. apply cut_None in H. unfold splitArg, GoStrings.SplitN2. by rewrite H.
Qed.

Lemma splitArg_named alias pth :
  "="%char ∉ list_ascii_of_string alias →
  splitArg (alias +:+ "=" +:+ pth) = (alias, pth).
Proof.
  intros H. unfold splitArg, GoStrings.SplitN2.
  change (alias +:+ "=" +:+ pth) with (alias +:+ String "="%char pth).
  by rewrite (cut_app _ _ _ H).
Qed.

(** X3: an argument is split at its first [=]: without one, the whole
    argument is the path and there is no alias; with one, the alias is the
    text before it, which holds no [=], and the path is everything after
    it. *)
Theorem splitArg_first_equals (templateArg : string) :
  (("="%char ∉ list_ascii_of_string templateArg)
   ∧ splitArg templateArg = ("", templateArg))
  ∨ (templateArg = (splitArg templateArg).1 +:+ "=" +:+ (splitArg templateArg).2
     ∧ ("="%char ∉ list_ascii_of_string (splitArg templateArg).1)).
Proof.
  destruct (GoStrings.cut "="%char templateArg) as [[a b]|] eqn:Hcut.
  - right. unfold splitArg, GoStrings.SplitN2. rewrite Hcut. cbn [fst snd length nth].
    change (1 <? 2)%nat with true. cbn [fst snd].
    by apply cut_Some in Hcut.
  - left. apply cut_None in Hcut. split; [done|]. by apply splitArg_bare.
Qed.

(** *** Files *)

Lemma parseTemplateArg_file templateArg (ta : templateAliases) fi :
  Stat (splitArg templateArg).2 = Ok fi → IsDir fi = false →
  parseTemplateArg templateArg ta
  = (<[(if String.eqb (splitArg templateArg).1 "" then (splitArg templateArg).2
        else (splitArg templateArg).1) := (splitArg templateArg).2]> ta, None).
Proof.
  unfold Aliases.parseTemplateArg.
  destruct (splitArg templateArg) as [alias pth]. cbn [fst snd].
  intros -> ->. by destruct (String.eqb alias "").
Qed.

(** X4: for a path that is a file, [alias=path] binds the alias to the
    path, and the path to itself when the alias is empty; a bare path binds
    the path to itself.  No other key changes, and there is no error. *)
Theorem file_alias (alias pth : string) (ta : templateAliases) fi :
  "="%char ∉ list_ascii_of_string alias →
  Stat pth = Ok fi → IsDir fi = false →
  parseTemplateArg (alias +:+ "=" +:+ pth) ta
  = (<[(if String.eqb alias "" then pth else alias) := pth]> ta, None)
  ∧ ("="%char ∉ list_ascii_of_string pth →
     parseTemplateArg pth ta = (<[pth := pth]> ta, None)).
Proof.
  intros Halias HS Hfile. split.
  - pose proof (splitArg_named alias pth Halias) as Hs.
    rewrite (parseTemplateArg_file _ ta fi); rewrite ?Hs; done.
  - intros Hpth. pose proof (splitArg_bare pth Hpth) as Hs.
    rewrite (parseTemplateArg_file _ ta fi); rewrite ?Hs; done.
Qed.

(** X5: an argument that fails leaves the map as it was; one that
    succeeds only adds or overrides bindings, so no key is ever lost. *)
Theorem parseTemplateArg_atomic_monotone templateArg (ta : templateAliases) :
  (∀ e, (parseTemplateArg templateArg ta).2 = Some e →
        (parseTemplateArg templateArg ta).1 = ta)
  ∧ (∀ k, is_Some (ta !! k) →
          is_Some ((parseTemplateArg templateArg ta).1 !! k)).
Proof.
  rewrite parseTemplateArg_override.
  destruct (argError templateArg) as [e|]; cbn [fst snd]; split; try done.
  intros k [v Hv]. rewrite lookup_union.
  destruct (produced templateArg !! k); rewrite Hv; by eexists.
Qed.

(** *** The resulting map *)

Lemma argError_resolves a : argError a = None → resolves a.
Proof.
  unfold Aliases.argError, Aliases.resolves, Aliases.parseTemplateArg.
  destruct (splitArg a) as [alias pth]. cbn [snd].
  destruct (Stat pth) as [fi|e]; [|done].
  intros H. exists fi. split; [done|]. intros Hd. rewrite Hd in H.
  destruct (ReadDir pth) as [files|e]; [by eexists|done].
Qed.

Lemma argError_cases (args : list string) :
  Forall (λ a, argError a = None) args
  ∨ ∃ pre a post e, args = pre ++ a :: post
                    ∧ Forall (λ b, argError b = None) pre
                    ∧ argError a = Some e.
Proof.
  induction args as [|a args IH]; [by left|].
  destruct (argError a) as [e|] eqn:Ha.
  - right. exists [], a, args, e. by repeat split.
  - destruct IH as [IH|(pre & b & post & e & -> & Hpre & Hb)].
    + left. by constructor.
    + right. exists (a :: pre), b, post, e. repeat split; [|done]. by constructor.
Qed.

(** X6: the resolver returns a map exactly when it returns no error, and
    that is exactly when every argument names a path that exists and, if a
    directory, can be listed; the empty argument list gives the empty map. *)
Theorem parseTemplateArgs_succeeds_iff (args : list string) :
  (is_Some (parseTemplateArgs args).1 ↔ (parseTemplateArgs args).2 = None)
  ∧ ((parseTemplateArgs args).2 = None ↔ Forall resolves args)
  ∧ parseTemplateArgs [] = (Some ∅, None).
Proof.
  pose proof (argError_cases args) as Hcases.
  split; [|split; [|done]].
  - destruct Hcases as [Hall|(pre & a & post & e & -> & Hpre & Ha)].
    + unfold Aliases.parseTemplateArgs. rewrite parseLoop_ok by done.
      cbn [fst snd]. split; [done|by eexists].
    + unfold Aliases.parseTemplateArgs.
      rewrite (parseLoop_first_error pre a post e) by done.
      cbn [fst snd]. split; [intros [? [=]]|done].
  - destruct Hcases as [Hall|(pre & a & post & e & -> & Hpre & Ha)].
    + unfold Aliases.parseTemplateArgs. rewrite parseLoop_ok by done.
      cbn [snd]. split; [|done]. intros _.
      eapply Forall_impl; [exact Hall|]. intros a. apply argError_resolves.
    + unfold Aliases.parseTemplateArgs.
      rewrite (parseLoop_first_error pre a post e) by done.
      cbn [snd]. split; [done|]. intros Hall.
      apply Forall_app in Hall as [_ Hall]. apply Forall_cons in Hall as [Hres _].
      apply resolves_argError in Hres. congruence.
Qed.

Lemma overrideAll_snoc nested l a :
  overrideAll nested (l ++ [a]) = produced a ∪ overrideAll nested l.
Proof. unfold Aliases.overrideAll. by rewrite foldl_app. Qed.

Lemma overrideAll_origin (k v : string) args :
  overrideAll ∅ args !! k = Some v →
  ∃ pre a post, args = pre ++ a :: post ∧ produced a !! k = Some v
                ∧ Forall (λ b, produced b !! k = None) post.
Proof.
  induction args as [|a args IH] using rev_ind.
  - cbn. by rewrite lookup_empty.
  - rewrite overrideAll_snoc, lookup_union.
    destruct (produced a !! k) as [v'|] eqn:Ha.
    + rewrite union_Some_l. intros [= ->]. exists args, a, []. by repeat split.
    + rewrite (left_id None _). intros H.
      destruct (IH H) as (pre & b & post & -> & Hb & Hpost).
      exists pre, b, (post ++ [a]). rewrite <- app_assoc. repeat split; [done|].
      apply Forall_app. split; [done|]. by constructor.
Qed.

(** X7: in the map the resolver returns, a key is bound to a path exactly
    when some argument produces that binding and no argument after it
    produces the key: nothing is bound that no argument produced, and a
    binding is lost only to a later one for the same key. *)
Theorem alias_map_lookup (args : list string) (m : templateAliases) (k v : string) :
  parseTemplateArgs args = (Some m, None) →
  (m !! k = Some v
   ↔ ∃ pre a post, args = pre ++ a :: post ∧ produced a !! k = Some v
                   ∧ Forall (λ b, produced b !! k = None) post).
Proof.
  intros Hparse.
  assert (Forall (λ a, argError a = None) args) as Hall.
  { destruct (argError_cases args) as [H|H]; [done|].
    destruct H as (pre & a & post & e & -> & Hpre & Ha).
    unfold Aliases.parseTemplateArgs in Hparse.
    by rewrite (parseLoop_first_error pre a post e) in Hparse. }
  unfold Aliases.parseTemplateArgs in Hparse.
  rewrite parseLoop_ok in Hparse by done. injection Hparse as <-.
  split; [apply overrideAll_origin|].
  intros (pre & a & post & -> & Ha & Hpost). by apply overrideAll_last.
Qed.

(** X8: a directory with no files in it, empty or holding sub-directories
    only, resolves without error and leaves the map as it was. *)
Theorem directory_without_files templateArg (ta : templateAliases) fi files :
  Stat (splitArg templateArg).2 = Ok fi → IsDir fi = true →
  ReadDir (splitArg templateArg).2 = Ok files →
  Forall (λ f, IsDir f = true) files →
  parseTemplateArg templateArg ta = (ta, None).
Proof.
  intros HS Hd HR Hdirs.
  rewrite (parseTemplateArg_directory _ _ _ _ HS Hd HR). f_equal. clear HR.
  induction files as [|f files IH] using rev_ind; [done|].
  apply Forall_app in Hdirs as [Hfiles Hf]. apply Forall_cons in Hf as [Hf _].
  rewrite foldl_addEntry_snoc, IH by done. unfold addEntry. by rewrite Hf.
Qed.

End Resolver.
End AliasSpec.

(** ** The engine *)

Module EngineSpec.
Section Engine.
Context {error value Data FuncMap template time ext : Type}.
Variable Stat : ext → string → result error FileInfo.
Variable ReadDir : ext → string → result error (list FileInfo).
Variable Funcs : Data → FuncMap.
Variable NewData : list string → list string → ext → result error Data * ext.
Variable Cleanup : Data → ext → ext.
Variable createContext : list string → Data → ext → result error (iface value) * ext.
Variable defaults : Config → Config.
Variable toGoTemplate : tplate → @gomplate value FuncMap → ext → result error template * ext.
Variable Execute : template → writer → iface value → ext → (string * option error) * ext.
Variable Close : writer → ext → ext.
Variable now : ext → time.
Variable since : time → ext → Z.
Variable Wrapf : error → gmap string (iface value) → string → error.
Variable gatherTemplates :
  Config → (string → St (@world ext) (string * option error))
  → St (@world ext) (list tplate * option error).

Local Abbreviation runTemplate := (runTemplate toGoTemplate Execute Close).
Local Abbreviation mappingNamer := (mappingNamer toGoTemplate Execute Wrapf).
Local Abbreviation chooseNamer := (chooseNamer toGoTemplate Execute Wrapf).
Local Abbreviation simpleNamer := (@simpleNamer error ext).
Local Abbreviation renderLoop :=
  (@renderLoop error value Data FuncMap template time ext
               toGoTemplate Execute Close now since).
Local Abbreviation renderEach := (renderEach toGoTemplate Execute Close).
Local Abbreviation gathered := (gathered toGoTemplate Execute Wrapf gatherTemplates).
Local Abbreviation runTemplates :=
  (@runTemplates error value Data FuncMap template time ext
                 toGoTemplate Execute Close now since Wrapf gatherTemplates).
Local Abbreviation RunTemplates :=
  (RunTemplates Stat ReadDir Funcs NewData Cleanup createContext defaults
                toGoTemplate Execute Close now since Wrapf gatherTemplates).

Ltac st_unfold :=
  unfold timeNow, timeSince, setMetrics;
  unfold mbind, St_bind, mret, St_ret, call, liftIO, modify, gets.

(** *** runTemplate, step by step *)

Lemma runTemplate_unfold g t (w : world) :
  runTemplate g t w
  = match toGoTemplate t g (outside w) with
    | (Err err, e1) =>
        (Some err, {| outside := e1; trace := trace w ++ [EvParse t] |})
    | (Ok tmpl, e1) =>
        match Execute tmpl (target t) (context g) e1 with
        | ((_, err), e2) =>
            if isCloser (target t) && bool_decide (target t ≠ Stdout)
            then (err, {| outside := Close (target t) e2;
                          trace := trace w ++ [EvParse t; EvExecute t; EvClose (target t)] |})
            else (err, {| outside := e2;
                          trace := trace w ++ [EvParse t; EvExecute t] |})
        end
    end.
Proof.
  unfold Gomplate.runTemplate. st_unfold.
  destruct (toGoTemplate t g (outside w)) as [[tmpl|err] e1]; [|done].
  cbn [outside trace].
  destruct (Execute tmpl (target t) (context g) e1) as [[written err] e2].
  destruct (isCloser (target t)); cbn [andb];
    [destruct (bool_decide (target t ≠ Stdout))|];
    cbn [outside trace]; by rewrite <- ?app_assoc.
Qed.

(** C9: whatever the descriptor, [runTemplate] never closes the standard
    output stream and closes nothing but the descriptor's target.  Once the
    template has compiled, it executes the template and then closes the
    target exactly when the target is closeable and is not the standard
    output stream: it returns what [Execute] returned, and the outside
    world it leaves is the one [Execute] left with [Close] applied to the
    target in that case, and the one [Execute] left, untouched, otherwise.
    When the template does not compile, it returns that error and leaves
    the outside world as the failed compilation left it, nothing closed. *)
Theorem runTemplate_closes_target g t (w : world) :
  ∃ evs : list event,
    trace ((runTemplate g t w).2) = trace w ++ evs
    ∧ (EvClose Stdout ∉ evs)
    ∧ (∀ tg, EvClose tg ∈ evs → tg = target t)
    ∧ (∀ tmpl e1, toGoTemplate t g (outside w) = (Ok tmpl, e1) →
         evs = EvParse t :: EvExecute t ::
               (if isCloser (target t) && bool_decide (target t ≠ Stdout)
                then [EvClose (target t)] else [])
         ∧ (EvClose (target t) ∈ evs
            ↔ isCloser (target t) = true ∧ target t ≠ Stdout)
         ∧ (runTemplate g t w).1 = (Execute tmpl (target t) (context g) e1).1.2
         ∧ (isCloser (target t) = true → target t ≠ Stdout →
            outside ((runTemplate g t w).2)
            = Close (target t) ((Execute tmpl (target t) (context g) e1).2))
         ∧ (isCloser (target t) = false ∨ target t = Stdout →
            outside ((runTemplate g t w).2)
            = (Execute tmpl (target t) (context g) e1).2))
    ∧ (∀ err e1, toGoTemplate t g (outside w) = (Err err, e1) →
         evs = [EvParse t]
         ∧ (runTemplate g t w).1 = Some err
         ∧ outside ((runTemplate g t w).2) = e1).
Proof.
  rewrite runTemplate_unfold.
  destruct (toGoTemplate t g (outside w)) as [[tmpl|err] e1].
  - destruct (Execute tmpl (target t) (context g) e1) as [[written err] e2] eqn:Hex.
    destruct (isCloser (target t)) eqn:Hc; cbn [andb].
    + destruct (bool_decide (target t ≠ Stdout)) eqn:Hs.
      * apply bool_decide_eq_true in Hs.
        exists [EvParse t; EvExecute t; EvClose (target t)].
        cbn [fst snd trace outside]. split; [done|]. split; [|split; [|split]].
        -- rewrite !elem_of_cons, elem_of_nil.
           intros [|[|[[=]|]]]; done.
        -- intros tg. rewrite !elem_of_cons, elem_of_nil.
           intros [|[|[[=]|]]]; done.
        -- intros ? ? [= <- <-]. rewrite Hex. cbn [fst snd].
           split; [done|]. split; [|split; [done|split; [done|]]].
           ++ split; [done|]. intros _. rewrite !elem_of_cons. tauto.
           ++ intros [|]; done.
        -- intros ? ? [=].
      * apply bool_decide_eq_false in Hs.
        exists [EvParse t; EvExecute t].
        cbn [fst snd trace outside]. split; [done|]. split; [|split; [|split]].
        -- rewrite !elem_of_cons, elem_of_nil. intros [|[|]]; done.
        -- intros tg. rewrite !elem_of_cons, elem_of_nil. intros [|[|]]; done.
        -- intros ? ? [= <- <-]. rewrite Hex. cbn [fst snd].
           split; [done|]. split; [|split; [done|split; [done|done]]].
           rewrite !elem_of_cons, elem_of_nil. split; [intros [|[|]]; done|].
           intros [_ ?]. done.
        -- intros ? ? [=].
    + exists [EvParse t; EvExecute t].
      cbn [fst snd trace outside]. split; [done|]. split; [|split; [|split]].
      * rewrite !elem_of_cons, elem_of_nil. intros [|[|]]; done.
      * intros tg. rewrite !elem_of_cons, elem_of_nil. intros [|[|]]; done.
      * intros ? ? [= <- <-]. rewrite Hex. cbn [fst snd].
        split; [done|]. split; [|split; [done|split; [done|done]]].
        rewrite !elem_of_cons, elem_of_nil. split; [intros [|[|]]; done|].
        intros [? _]. done.
      * intros ? ? [=].
  - exists [EvParse t]. cbn [fst snd trace outside]. split; [done|].
    split; [|split; [|split]].
    + rewrite elem_of_cons, elem_of_nil. intros [|]; done.
    + intros tg. rewrite elem_of_cons, elem_of_nil. intros [|]; done.
    + intros ? ? [=].
    + by intros ? ? [= <- <-].
Qed.

(** *** The namers *)

Lemma Clean_nonempty p : GoPath.Clean p ≠ "".
Proof.
  unfold GoPath.Clean.
  destruct (list_ascii_of_string p) as [|c l]; [done|].
  destruct (GoPath.cleanLoop _ _ _ _ _) as [|c' out]; [done|].
  cbn [rev]. destruct (rev out); discriminate.
Qed.

(** C7: for every output directory and every input path the static namer
    returns [filepath.Clean(filepath.Join(outDir, p))], a non-empty path,
    with a nil error, and leaves the world as it found it. *)
Theorem simpleNamer_clean_join (outDir p : string) (w : world) :
  simpleNamer outDir p w
  = ((GoFilepath.Clean (GoFilepath.Join [outDir; p]), None), w)
  ∧ (simpleNamer outDir p w).1.1 ≠ "".
Proof. split; [done|]. apply Clean_nonempty. Qed.

(** C10: [chooseNamer] looks at nothing but whether [OutputMap] is the
    empty string: the static namer for the output directory when it is,
    the dynamic namer for the mapping template when it is not. *)
Theorem chooseNamer_by_emptiness (o : Config) (g : @gomplate value FuncMap) :
  chooseNamer o g
  = if decide (OutputMap o = "") then simpleNamer (OutputDir o)
    else mappingNamer (OutputMap o) g.
Proof.
  unfold Gomplate.chooseNamer.
  destruct (String.eqb_spec (OutputMap o) "") as [Heq|Hne].
  - by rewrite decide_True.
  - by rewrite decide_False.
Qed.

Lemma copyEntries_lookup (c : gmap string (iface value)) k :
  copyEntries c ∅ !! k
  = if bool_decide (k ≠ "in") && bool_decide (k ≠ "ctx") then c !! k else None.
Proof.
  unfold copyEntries. revert k.
  apply (map_fold_weak_ind
           (λ (r : gmap string (iface value)) (m : gmap string (iface value)),
              ∀ k, r !! k = if bool_decide (k ≠ "in") && bool_decide (k ≠ "ctx")
                            then m !! k else None)).
  - intros k. rewrite !lookup_empty. by destruct (_ && _).
  - intros i x m r Hi IH k.
    destruct (decide (i = k)) as [->|Hne].
    + rewrite lookup_insert_eq.
      destruct (bool_decide (k ≠ "in") && bool_decide (k ≠ "ctx")) eqn:Hk.
      * by rewrite lookup_insert_eq.
      * by rewrite IH, Hk.
    + rewrite (lookup_insert_ne m) by done.
      destruct (bool_decide (i ≠ "in") && bool_decide (i ≠ "ctx")).
      * rewrite lookup_insert_ne by done. apply IH.
      * apply IH.
Qed.

Lemma derivedContext_lookup (g : @gomplate value FuncMap) inPath :
  derivedContext g inPath !! "in" = Some (IString inPath)
  ∧ derivedContext g inPath !! "ctx" = Some (context g)
  ∧ ∀ k, k ≠ "in" → k ≠ "ctx" →
         derivedContext g inPath !! k
         = match context g with
           | IContext c => c !! k
           | _ => None
           end.
Proof.
  unfold derivedContext. split; [|split].
  - by rewrite lookup_insert_eq.
  - rewrite lookup_insert_ne by done. by rewrite lookup_insert_eq.
  - intros k Hin Hctx. rewrite !lookup_insert_ne by done.
    destruct (context g); try apply lookup_empty.
    rewrite copyEntries_lookup.
    by rewrite !bool_decide_eq_true_2.
Qed.

Lemma mappingNamer_unfold (outMap : string) (g : @gomplate value FuncMap)
      (inPath : string) (w : world) :
  let t := {| name := "<OutputMap>"; contents := outMap; target := Buffer |} in
  mappingNamer outMap g inPath w
  = match toGoTemplate t g (outside w) with
    | (Err err, e1) =>
        (("", Some err), {| outside := e1; trace := trace w ++ [EvParse t] |})
    | (Ok tpl, e1) =>
        match Execute tpl Buffer (IContext (derivedContext g inPath)) e1 with
        | ((written, None), e2) =>
            ((GoFilepath.Clean (GoStrings.TrimSpace written), None),
             {| outside := e2; trace := trace w ++ [EvParse t; EvExecute t] |})
        | ((_, Some err), e2) =>
            (("", Some (Wrapf err (derivedContext g inPath) inPath)),
             {| outside := e2; trace := trace w ++ [EvParse t; EvExecute t] |})
        end
    end.
Proof.
  intros t.
  unfold Gomplate.mappingNamer. fold t. st_unfold.
  change (target t) with Buffer.
  destruct (toGoTemplate t g (outside w)) as [[tpl|err] e1]; [|done].
  cbn [outside trace].
  destruct (Execute tpl Buffer (IContext (derivedContext g inPath)) e1)
    as [[written [err|]] e2]; by rewrite <- app_assoc.
Qed.

(** C2: for every input identifier there is one derived context: ["in"]
    is the input identifier, ["ctx"] the original full context, and every
    other key holds what the rendering context holds under it when that
    is a mapping, and nothing when it is a single root value.  Once the
    mapping template has compiled it is executed against that context,
    and on success the output path is
    [filepath.Clean(strings.TrimSpace(output))]. *)
Theorem mappingNamer_derived_context (outMap : string) (g : @gomplate value FuncMap)
        (inPath : string) (w : world) :
  let t := {| name := "<OutputMap>"; contents := outMap; target := Buffer |} in
  ∃ ctx : gmap string (iface value),
    ctx !! "in" = Some (IString inPath)
    ∧ ctx !! "ctx" = Some (context g)
    ∧ (∀ k, k ≠ "in" → k ≠ "ctx" →
            ctx !! k = match context g with
                       | IContext c => c !! k
                       | _ => None
                       end)
    ∧ mappingNamer outMap g inPath w
      = match toGoTemplate t g (outside w) with
        | (Err err, e1) =>
            (("", Some err), {| outside := e1; trace := trace w ++ [EvParse t] |})
        | (Ok tpl, e1) =>
            match Execute tpl Buffer (IContext ctx) e1 with
            | ((written, None), e2) =>
                ((GoFilepath.Clean (GoStrings.TrimSpace written), None),
                 {| outside := e2; trace := trace w ++ [EvParse t; EvExecute t] |})
            | ((_, Some err), e2) =>
                (("", Some (Wrapf err ctx inPath)),
                 {| outside := e2; trace := trace w ++ [EvParse t; EvExecute t] |})
            end
        end.
Proof.
  intros t. exists (derivedContext g inPath).
  destruct (derivedContext_lookup g inPath) as (Hin & Hctx & Hrest).
  split; [done|]. split; [done|]. split; [done|].
  apply mappingNamer_unfold.
Qed.

Lemma mappingNamer_parses outMap g inPath (w : world) :
  parses (trace ((mappingNamer outMap g inPath w).2)) = S (parses (trace w)).
Proof.
  rewrite mappingNamer_unfold. unfold parses.
  destruct (toGoTemplate _ g (outside w)) as [[tpl|err] e1].
  - destruct (Execute tpl Buffer _ e1) as [[written [err|]] e2];
      cbn [snd trace]; rewrite filter_app, length_app; simpl; lia.
  - cbn [snd trace]. rewrite filter_app, length_app. simpl. lia.
Qed.

Lemma mappingNamer_parsed outMap g inPath (w : world) :
  parsed (trace ((mappingNamer outMap g inPath w).2))
  = parsed (trace w)
    ++ [{| name := "<OutputMap>"; contents := outMap; target := Buffer |}].
Proof.
  rewrite mappingNamer_unfold. unfold parsed.
  destruct (toGoTemplate _ g (outside w)) as [[tpl|err] e1].
  - destruct (Execute tpl Buffer _ e1) as [[written [err|]] e2];
      cbn [snd trace]; by rewrite omap_app.
  - cbn [snd trace]. by rewrite omap_app.
Qed.

(** C3 (amended): the dynamic namer compiles the mapping template on
    every call: asked about [n] inputs in turn, it calls [toGoTemplate]
    [n] times, once per input, each time on the descriptor [<OutputMap>]
    that holds the configured mapping-template string, and it compiles
    nothing else. *)
Theorem mappingNamer_compiles_per_input outMap g (inputs : list string) (w : world) :
  parses (trace ((nameEach (mappingNamer outMap g) inputs w).2))
  = (parses (trace w) + length inputs)%nat
  ∧ parsed (trace ((nameEach (mappingNamer outMap g) inputs w).2))
    = parsed (trace w)
      ++ replicate (length inputs)
           {| name := "<OutputMap>"; contents := outMap; target := Buffer |}.
Proof.
  revert w. induction inputs as [|i rest IH]; intros w.
  - cbn. split; [lia|by rewrite app_nil_r].
  - cbn [nameEach length]. st_unfold.
    destruct (mappingNamer outMap g i w) as [r w1] eqn:H1.
    pose proof (mappingNamer_parses outMap g i w) as Hp. rewrite H1 in Hp.
    pose proof (mappingNamer_parsed outMap g i w) as Hq. rewrite H1 in Hq.
    cbn [snd] in Hp, Hq.
    destruct (IH w1) as [IH1 IH2].
    destruct (nameEach (mappingNamer outMap g) rest w1) as [rs w2].
    cbn [snd] in *. split; [lia|].
    rewrite IH2, Hq, <- app_assoc. done.
Qed.

(** *** The execution loop *)

Lemma wrapInt_small z : (- 2 ^ 63 ≤ z < 2 ^ 63)%Z → wrapInt z = z.
Proof. intros H. unfold wrapInt. rewrite Z.mod_small; lia. Qed.

Lemma renderLoop_fails g t post (s : state) e w2 :
  runTemplate g t (io s) = (Some e, w2) →
  renderLoop g (t :: post) s
  = (Some e,
     {| io := w2;
        Metrics := incErrors
                     (setRenderDuration (name t)
                        (since (now (outside (io s))) (outside w2)) (Metrics s));
        cleanupHooks := cleanupHooks s |}).
Proof.
  intros Hrun. cbn [Gomplate.renderLoop]. st_unfold. cbv beta iota.
  by rewrite Hrun.
Qed.

Lemma renderLoop_prefix g pre rest (s : state) wk :
  renderEach g pre (io s) = (replicate (length pre) None, wk) →
  (0 ≤ TemplatesProcessed (Metrics s))%Z →
  (TemplatesProcessed (Metrics s) + Z.of_nat (length pre) < 2 ^ 63)%Z →
  ∃ m' : MetricsTempl,
    renderLoop g (pre ++ rest) s
    = renderLoop g rest {| io := wk; Metrics := m'; cleanupHooks := cleanupHooks s |}
    ∧ TemplatesProcessed m' = (TemplatesProcessed (Metrics s) + Z.of_nat (length pre))%Z
    ∧ Errors m' = Errors (Metrics s).
Proof.
  revert s. induction pre as [|t pre IH]; intros s Heach Hlo Hhi.
  - injection Heach as <-. exists (Metrics s). destruct s. cbn.
    split; [done|]. split; [lia|done].
  - cbn [Gomplate.renderEach] in Heach. unfold mbind, St_bind, mret, St_ret in Heach.
    destruct (runTemplate g t (io s)) as [r w1] eqn:Hrun.
    destruct (renderEach g pre w1) as [rs w2] eqn:Hrest.
    cbn [length replicate] in Heach. injection Heach as -> -> ->.
    cbn [length] in Hhi.
    set (s1 := {| io := w1;
                  Metrics := incTemplatesProcessed
                               (setRenderDuration (name t)
                                  (since (now (outside (io s))) (outside w1)) (Metrics s));
                  cleanupHooks := cleanupHooks s |}).
    assert (TemplatesProcessed (Metrics s1) = (TemplatesProcessed (Metrics s) + 1)%Z) as Htp.
    { cbn. apply wrapInt_small. lia. }
    destruct (IH s1) as (m' & Hloop & Hm' & He'); [done|lia|lia|].
    exists m'. split; [|split].
    + cbn [app Gomplate.renderLoop]. st_unfold. cbv beta iota.
      rewrite Hrun. exact Hloop.
    + rewrite Hm', Htp. cbn [length]. lia.
    + by rewrite He'.
Qed.

Lemma runTemplates_unfold g o (s : state) ts w1 :
  gathered g o (io s) = ((ts, None), w1) →
  runTemplates g o s
  = let s1 := {| io := w1;
                 Metrics := setTemplatesGathered (Z.of_nat (length ts))
                              (setGatherDuration
                                 (since (now (outside (io s))) (outside w1)) (Metrics s));
                 cleanupHooks := cleanupHooks s |} in
    let '(r, s2) := renderLoop g ts s1 in
    (r, {| io := io s2;
           Metrics := setTotalRenderDuration
                        (since (now (outside w1)) (outside (io s2))) (Metrics s2);
           cleanupHooks := cleanupHooks s2 |}).
Proof.
  intros Hg. unfold Gomplate.runTemplates. st_unfold. cbv beta iota.
  rewrite Hg.
  cbn [io Metrics cleanupHooks].
  by destruct (renderLoop g ts _) as [r s2].
Qed.

(** Rendering a list of descriptors in order either goes through or meets
    a first descriptor that fails. *)
Lemma renderEach_cases g ts (w1 : world) :
  (∃ wn, renderEach g ts w1 = (replicate (length ts) None, wn))
  ∨ (∃ pre t post e wk w2,
       ts = pre ++ t :: post
       ∧ renderEach g pre w1 = (replicate (length pre) None, wk)
       ∧ runTemplate g t wk = (Some e, w2)).
Proof.
  revert w1. induction ts as [|t ts IH]; intros w1.
  - left. by exists w1.
  - destruct (runTemplate g t w1) as [[e|] w2] eqn:Hrun.
    + right. exists [], t, ts, e, w1, w2. by repeat split.
    + destruct (IH w2) as [[wn Hall]|(pre & t' & post & e & wk & w3 & -> & Hpre & Hfail)].
      * left. exists wn. cbn [Gomplate.renderEach length replicate].
        unfold mbind, St_bind, mret, St_ret. by rewrite Hrun, Hall.
      * right. exists (t :: pre), t', post, e, wk, w3.
        split; [done|]. split; [|done].
        cbn [Gomplate.renderEach length replicate].
        unfold mbind, St_bind, mret, St_ret. by rewrite Hrun, Hpre.
Qed.

(** C1: after a successful gather into fresh counters, [runTemplates]
    renders the descriptors one after another in gathered order.  If the
    descriptors before [t] all render and [t] fails with [e], the run
    returns [e], [Errors] is one more than it was, [TemplatesProcessed] is
    the number of descriptors before [t], and the world is left as the
    failing render left it: nothing after [t] is rendered.  If every
    descriptor renders, the run returns nil and [TemplatesProcessed] is the
    number of descriptors. *)
Theorem runTemplates_fail_fast g o (s : state) ts w1 :
  gathered g o (io s) = ((ts, None), w1) →
  TemplatesProcessed (Metrics s) = 0%Z →
  (Z.of_nat (length ts) < 2 ^ 63)%Z →
  (∀ pre t post e wk w2,
      ts = pre ++ t :: post →
      renderEach g pre w1 = (replicate (length pre) None, wk) →
      runTemplate g t wk = (Some e, w2) →
      (runTemplates g o s).1 = Some e
      ∧ Errors (Metrics ((runTemplates g o s).2)) = wrapInt (Errors (Metrics s) + 1)
      ∧ TemplatesProcessed (Metrics ((runTemplates g o s).2)) = Z.of_nat (length pre)
      ∧ io ((runTemplates g o s).2) = w2)
  ∧ (∀ wn,
      renderEach g ts w1 = (replicate (length ts) None, wn) →
      (runTemplates g o s).1 = None
      ∧ Errors (Metrics ((runTemplates g o s).2)) = Errors (Metrics s)
      ∧ TemplatesProcessed (Metrics ((runTemplates g o s).2)) = Z.of_nat (length ts)
      ∧ io ((runTemplates g o s).2) = wn).
Proof.
  intros Hg Htp Hlen.
  rewrite (runTemplates_unfold _ _ _ _ _ Hg). cbv zeta.
  set (s1 := {| io := w1; Metrics := _; cleanupHooks := _ |}).
  assert (TemplatesProcessed (Metrics s1) = 0%Z) as Htp1 by exact Htp.
  assert (Errors (Metrics s1) = Errors (Metrics s)) as Herr1 by done.
  split.
  - intros pre t post e wk w2 -> Hpre Hfail.
    rewrite length_app in Hlen. cbn [length] in Hlen.
    destruct (renderLoop_prefix g pre (t :: post) s1 wk) as (m' & Hloop & Hm' & He');
      [done|lia|lia|].
    rewrite Hloop, (renderLoop_fails g t post _ e w2) by done.
    cbn [fst snd io Metrics Errors TemplatesProcessed incErrors
         setRenderDuration setTotalRenderDuration].
    rewrite Hm', He', Htp1, Herr1. by repeat split.
  - intros wn Hall.
    destruct (renderLoop_prefix g ts [] s1 wn) as (m' & Hloop & Hm' & He');
      [done|lia|lia|].
    rewrite app_nil_r in Hloop. rewrite Hloop.
    cbn [Gomplate.renderLoop mret St_ret fst snd io Metrics Errors
         TemplatesProcessed setTotalRenderDuration].
    rewrite Hm', He', Htp1, Herr1. by repeat split.
Qed.

(** *** Setup failures *)

Lemma runHooks_trace hooks (w : world) :
  trace ((runHooks Cleanup hooks w).2)
  = trace w ++ replicate (length hooks) EvCleanup.
Proof.
  induction hooks as [|d hooks IH].
  - cbn. by rewrite app_nil_r.
  - cbn [Gomplate.runHooks]. st_unfold.
    destruct (runHooks Cleanup hooks w) as [u w1]. cbn [snd trace] in *.
    rewrite IH, <- app_assoc. f_equal.
    change [EvCleanup] with (replicate 1 EvCleanup).
    rewrite <- replicate_add. f_equal. cbn [length]. lia.
Qed.

Lemma runHooks_outside hooks (w : world) :
  outside ((runHooks Cleanup hooks w).2) = foldr Cleanup (outside w) hooks.
Proof.
  induction hooks as [|d hooks IH]; [done|].
  cbn [Gomplate.runHooks foldr]. st_unfold.
  destruct (runHooks Cleanup hooks w) as [u w1]. cbn [snd outside] in *.
  by rewrite IH.
Qed.

(** C6: once the data sources are set up, if the template-alias
    arguments before [a] resolve and [a] names a path that does not exist
    or a directory that cannot be listed, the resolver returns the nil
    map with that error, and the run returns that error having made no
    call after alias resolution: no context is created and no template is
    gathered, compiled or executed; only the cleanup hooks run. *)
Theorem RunTemplates_alias_failure o (s : state) d e1 pre a post e :
  NewData (DataSources (defaults o) ++ Contexts (defaults o))
          (DataSourceHeaders (defaults o)) (outside (io s)) = (Ok d, e1) →
  Templates (defaults o) = pre ++ a :: post →
  Forall (Aliases.resolves (Stat e1) (ReadDir e1)) pre →
  Aliases.failsWith (Stat e1) (ReadDir e1) a e →
  Aliases.parseTemplateArgs (Stat e1) (ReadDir e1) (Templates (defaults o))
  = (None, Some e)
  ∧ (RunTemplates o s).1 = Some e
  ∧ trace (io ((RunTemplates o s).2))
    = trace (io s) ++ EvNewData :: replicate (S (length (cleanupHooks s))) EvCleanup.
Proof.
  intros HD HT Hpre Ha.
  assert (Aliases.parseTemplateArgs (Stat e1) (ReadDir e1) (Templates (defaults o))
          = (None, Some e)) as Hparse.
  { rewrite HT. apply AliasSpec.parseLoop_first_error.
    - eapply Forall_impl; [exact Hpre|]. intros b. apply AliasSpec.resolves_argError.
    - by apply AliasSpec.failsWith_argError. }
  split; [done|].
  unfold Gomplate.RunTemplates, runCleanupHooks, addCleanupHook. st_unfold.
  cbn [io Metrics cleanupHooks outside trace]. rewrite HD.
  cbn [io Metrics cleanupHooks outside trace]. rewrite Hparse.
  cbn [io Metrics cleanupHooks outside trace].
  destruct (runHooks Cleanup (cleanupHooks s ++ [d]) _) as [u w'] eqn:Hh.
  cbn [fst snd io]. split; [done|].
  pose proof (runHooks_trace (cleanupHooks s ++ [d])
                {| outside := e1; trace := trace (io s) ++ [EvNewData] |}) as Htr.
  rewrite Hh in Htr. cbn [snd trace] in Htr. rewrite Htr.
  rewrite length_app. cbn [length].
  rewrite <- app_assoc. cbn [app]. do 2 f_equal. f_equal. lia.
Qed.

(** *** What a batch leaves in the metrics and in the trace *)

Lemma parsed_app tr1 tr2 : parsed (tr1 ++ tr2) = parsed tr1 ++ parsed tr2.
Proof. apply omap_app. Qed.

Lemma runTemplate_parsed g t (w : world) :
  parsed (trace ((runTemplate g t w).2)) = parsed (trace w) ++ [t].
Proof.
  rewrite runTemplate_unfold.
  destruct (toGoTemplate t g (outside w)) as [[tmpl|err] e1].
  - destruct (Execute tmpl (target t) (context g) e1) as [[written err] e2].
    destruct (isCloser (target t) && bool_decide (target t ≠ Stdout));
      cbn [snd trace]; by rewrite parsed_app.
  - cbn [snd trace]. by rewrite parsed_app.
Qed.

Lemma renderLoop_step_ok g t rest (s : state) w2 :
  runTemplate g t (io s) = (None, w2) →
  renderLoop g (t :: rest) s
  = renderLoop g rest
      {| io := w2;
         Metrics := incTemplatesProcessed
                      (setRenderDuration (name t)
                         (since (now (outside (io s))) (outside w2)) (Metrics s));
         cleanupHooks := cleanupHooks s |}.
Proof.
  intros Hrun. cbn [Gomplate.renderLoop]. st_unfold. cbv beta iota.
  by rewrite Hrun.
Qed.

(** Everything the loop of [runTemplates] does to the state: [k] is the
    number of descriptors it attempted. *)
Lemma renderLoop_run g ts (s : state) :
  (0 ≤ TemplatesProcessed (Metrics s))%Z →
  (TemplatesProcessed (Metrics s) + Z.of_nat (length ts) < 2 ^ 63)%Z →
  ∃ k : nat,
    (k ≤ length ts)%nat
    ∧ parsed (trace (io ((renderLoop g ts s).2))) = parsed (trace (io s)) ++ take k ts
    ∧ match (renderLoop g ts s).1 with
      | None =>
          k = length ts
          ∧ TemplatesProcessed (Metrics ((renderLoop g ts s).2))
            = (TemplatesProcessed (Metrics s) + Z.of_nat k)%Z
          ∧ Errors (Metrics ((renderLoop g ts s).2)) = Errors (Metrics s)
      | Some _ =>
          (1 ≤ k)%nat
          ∧ TemplatesProcessed (Metrics ((renderLoop g ts s).2))
            = (TemplatesProcessed (Metrics s) + Z.of_nat k - 1)%Z
          ∧ Errors (Metrics ((renderLoop g ts s).2)) = wrapInt (Errors (Metrics s) + 1)
      end
    ∧ TemplatesGathered (Metrics ((renderLoop g ts s).2)) = TemplatesGathered (Metrics s)
    ∧ GatherDuration (Metrics ((renderLoop g ts s).2)) = GatherDuration (Metrics s)
    ∧ TotalRenderDuration (Metrics ((renderLoop g ts s).2))
      = TotalRenderDuration (Metrics s)
    ∧ cleanupHooks ((renderLoop g ts s).2) = cleanupHooks s
    ∧ (∀ n, is_Some (RenderDuration (Metrics ((renderLoop g ts s).2)) !! n)
            ↔ is_Some (RenderDuration (Metrics s) !! n) ∨ n ∈ name <$> take k ts).
Proof.
  revert s. induction ts as [|t ts IH]; intros s Hlo Hhi.
  - exists 0%nat. cbn. rewrite app_nil_r. repeat split; try done; try lia.
    + by left.
    + intros [?|H]; [done|]. by apply elem_of_nil in H.
  - destruct (runTemplate g t (io s)) as [[e|] w2] eqn:Hrun.
    + exists 1%nat. rewrite (renderLoop_fails _ _ _ _ _ _ Hrun).
      pose proof (runTemplate_parsed g t (io s)) as Hp. rewrite Hrun in Hp.
      cbn [fst snd io Metrics cleanupHooks take length] in *.
      split; [lia|]. split; [exact Hp|]. split; [cbn; split; [lia|split; [lia|done]]|].
      repeat split; try done.
      * cbn. rewrite lookup_insert_is_Some. rewrite list_elem_of_singleton.
        intros [->|[_ ?]]; [by right|by left].
      * cbn. rewrite lookup_insert_is_Some. rewrite list_elem_of_singleton.
        intros [ H | -> ]; [|by left].
        destruct (decide (name t = n)); [by left|by right].
    + rewrite (renderLoop_step_ok _ _ _ _ _ Hrun).
      set (s1 := {| io := w2; Metrics := _; cleanupHooks := _ |}).
      cbn [length] in Hhi.
      assert (TemplatesProcessed (Metrics s1) = (TemplatesProcessed (Metrics s) + 1)%Z)
        as Htp by (cbn; apply wrapInt_small; lia).
      destruct (IH s1) as (k & Hk & Hparsed & Hres & Htg & Hgd & Htd & Hhooks & Hrd);
        [lia|lia|].
      pose proof (runTemplate_parsed g t (io s)) as Hp. rewrite Hrun in Hp.
      cbn [snd] in Hp.
      exists (S k). split; [cbn [length]; lia|].
      split; [rewrite Hparsed; cbn [io s1 take]; rewrite Hp, <- app_assoc; done|].
      split.
      { destruct (renderLoop g ts s1).1; destruct Hres as (H1 & H2 & H3);
          (split; [cbn [length]; lia|]); (split; [rewrite H2, Htp; lia|by rewrite H3]). }
      split; [by rewrite Htg|]. split; [by rewrite Hgd|]. split; [by rewrite Htd|].
      split; [by rewrite Hhooks|].
      intros n. rewrite Hrd. cbn [s1 Metrics RenderDuration setRenderDuration
                                  incTemplatesProcessed take fmap list_fmap].
      rewrite lookup_insert_is_Some, elem_of_cons.
      split.
      * intros [[->|[_ ?]]|?]; [right; by left|by left|right; by right].
      * intros [ H | [ -> | H ] ]; [|left; by left|by right].
        left. destruct (decide (name t = n)); [by left|by right].
Qed.

Lemma runTemplates_gather_fails g o (s : state) ts e w1 :
  gathered g o (io s) = ((ts, Some e), w1) →
  runTemplates g o s
  = (Some e,
     {| io := w1;
        Metrics := incErrors
                     (setGatherDuration
                        (since (now (outside (io s))) (outside w1)) (Metrics s));
        cleanupHooks := cleanupHooks s |}).
Proof.
  intros Hg. unfold Gomplate.runTemplates. st_unfold. cbv beta iota.
  by rewrite Hg.
Qed.

(** X9: when gathering fails, [runTemplates] returns that error at once:
    [Errors] goes up by one, nothing is compiled or executed after the
    gather (the world is left as gathering left it), and the other
    counters, the render durations among them, stay as they were. *)
Theorem runTemplates_gather_failure g o (s : state) ts e w1 :
  gathered g o (io s) = ((ts, Some e), w1) →
  (runTemplates g o s).1 = Some e
  ∧ io ((runTemplates g o s).2) = w1
  ∧ Errors (Metrics ((runTemplates g o s).2)) = wrapInt (Errors (Metrics s) + 1)
  ∧ TemplatesGathered (Metrics ((runTemplates g o s).2)) = TemplatesGathered (Metrics s)
  ∧ TemplatesProcessed (Metrics ((runTemplates g o s).2))
    = TemplatesProcessed (Metrics s)
  ∧ TotalRenderDuration (Metrics ((runTemplates g o s).2))
    = TotalRenderDuration (Metrics s)
  ∧ RenderDuration (Metrics ((runTemplates g o s).2)) = RenderDuration (Metrics s).
Proof. intros Hg. by rewrite (runTemplates_gather_fails _ _ _ _ _ _ Hg). Qed.

(** X10: after a successful gather into fresh counters, [TemplatesGathered]
    is the number of descriptors, [TemplatesProcessed] lies between 0 and
    that number and reaches it exactly when the batch returns nil, and the
    descriptors compiled since the gather are, in order and once each, the
    first [TemplatesProcessed] gathered ones, plus the failing one when the
    batch fails. *)
Theorem runTemplates_counts g o (s : state) ts w1 :
  gathered g o (io s) = ((ts, None), w1) →
  TemplatesProcessed (Metrics s) = 0%Z →
  (Z.of_nat (length ts) < 2 ^ 63)%Z →
  TemplatesGathered (Metrics ((runTemplates g o s).2)) = Z.of_nat (length ts)
  ∧ (0 ≤ TemplatesProcessed (Metrics ((runTemplates g o s).2)) ≤ Z.of_nat (length ts))%Z
  ∧ ((runTemplates g o s).1 = None
     ↔ TemplatesProcessed (Metrics ((runTemplates g o s).2)) = Z.of_nat (length ts))
  ∧ parsed (trace (io ((runTemplates g o s).2)))
    = parsed (trace w1)
      ++ take (Z.to_nat (TemplatesProcessed (Metrics ((runTemplates g o s).2)))
               + match (runTemplates g o s).1 with Some _ => 1 | None => 0 end)%nat ts.
Proof.
  intros Hg Htp Hlen.
  rewrite (runTemplates_unfold _ _ _ _ _ Hg). cbv zeta.
  set (s1 := {| io := w1; Metrics := _; cleanupHooks := _ |}).
  destruct (renderLoop_run g ts s1) as (k & Hk & Hparsed & Hres & Htg & _);
    [cbn; lia|cbn; lia|].
  destruct (renderLoop g ts s1) as [r s2].
  cbn [fst snd io Metrics TemplatesGathered TemplatesProcessed
       setTotalRenderDuration] in *.
  assert (TemplatesProcessed (Metrics s1) = 0%Z) as Htp1 by exact Htp.
  rewrite Htp1 in Hres.
  split; [by rewrite Htg|].
  destruct r as [e|]; destruct Hres as (H1 & H2 & H3); rewrite H2.
  - split; [lia|]. split; [split; [done|lia]|].
    rewrite Hparsed. do 2 f_equal. lia.
  - split; [lia|]. split; [split; [lia|done]|].
    rewrite Hparsed. do 2 f_equal. lia.
Qed.

(** X11: after a successful gather, a name has a render duration exactly
    when it had one before or is the name of a descriptor the batch
    attempted, the failing one included; descriptors after a failure get
    none. *)
Theorem runTemplates_render_durations g o (s : state) ts w1 (n : string) :
  gathered g o (io s) = ((ts, None), w1) →
  TemplatesProcessed (Metrics s) = 0%Z →
  (Z.of_nat (length ts) < 2 ^ 63)%Z →
  is_Some (RenderDuration (Metrics ((runTemplates g o s).2)) !! n)
  ↔ is_Some (RenderDuration (Metrics s) !! n)
    ∨ n ∈ name <$> take (Z.to_nat (TemplatesProcessed (Metrics ((runTemplates g o s).2)))
                         + match (runTemplates g o s).1 with Some _ => 1 | None => 0 end)%nat ts.
Proof.
  intros Hg Htp Hlen.
  rewrite (runTemplates_unfold _ _ _ _ _ Hg). cbv zeta.
  set (s1 := {| io := w1; Metrics := _; cleanupHooks := _ |}).
  destruct (renderLoop_run g ts s1)
    as (k & Hk & _ & Hres & _ & _ & _ & _ & Hrd); [cbn; lia|cbn; lia|].
  specialize (Hrd n).
  destruct (renderLoop g ts s1) as [r s2].
  cbn [fst snd io Metrics TemplatesProcessed RenderDuration
       setTotalRenderDuration] in *.
  assert (TemplatesProcessed (Metrics s1) = 0%Z) as Htp1 by exact Htp.
  rewrite Htp1 in Hres.
  assert ((Z.to_nat (TemplatesProcessed (Metrics s2)) + match r with Some _ => 1 | None => 0 end)%nat = k)
    as ->.
  { destruct r; destruct Hres as (H1 & H2 & H3); rewrite H2; lia. }
  exact Hrd.
Qed.

(** *** The paths through [RunTemplates] *)



(** [RunTemplates] path by path; the deferred hooks close every path. *)
Lemma RunTemplates_unfold o (s : state) :
  let o' := defaults o in
  let finish (r : option error) (s' : state) :=
    (r, {| io := (runHooks Cleanup (cleanupHooks s') (io s')).2;
           Metrics := Metrics s';
           cleanupHooks := cleanupHooks s' |}) in
  RunTemplates o s
  = match NewData (DataSources o' ++ Contexts o') (DataSourceHeaders o')
                  (outside (io s)) with
    | (Err err, e1) =>
        finish (Some err)
               {| io := {| outside := e1; trace := trace (io s) ++ [EvNewData] |};
                  Metrics := newMetrics;
                  cleanupHooks := cleanupHooks s |}
    | (Ok d, e1) =>
        match Aliases.parseTemplateArgs (Stat e1) (ReadDir e1) (Templates o') with
        | (_, Some err) =>
            finish (Some err)
                   {| io := {| outside := e1; trace := trace (io s) ++ [EvNewData] |};
                      Metrics := newMetrics;
                      cleanupHooks := cleanupHooks s ++ [d] |}
        | (nested, None) =>
            match createContext (Contexts o') d e1 with
            | (Err err, e2) =>
                finish (Some err)
                       {| io := {| outside := e2;
                                   trace := trace (io s) ++ [EvNewData; EvCreateContext] |};
                          Metrics := newMetrics;
                          cleanupHooks := cleanupHooks s ++ [d] |}
            | (Ok c, e2) =>
                let '(r, s2) :=
                  runTemplates
                    (newGomplate Funcs d (LDelim o') (RDelim o') (default ∅ nested) c) o'
                    {| io := {| outside := e2;
                                trace := trace (io s) ++ [EvNewData; EvCreateContext] |};
                       Metrics := newMetrics;
                       cleanupHooks := cleanupHooks s ++ [d] |} in
                finish r s2
            end
        end
    end.
Proof.
  intros o' finish. subst finish.
  unfold Gomplate.RunTemplates, runCleanupHooks, addCleanupHook. fold o'.
  st_unfold. cbv beta iota. cbn [io Metrics cleanupHooks outside trace].
  destruct (NewData _ _ _) as [[d|err] e1]; cbn [io Metrics cleanupHooks outside trace].
  - destruct (Aliases.parseTemplateArgs _ _ _) as [nested [err|]];
      cbn [io Metrics cleanupHooks outside trace].
    + by destruct (runHooks _ _ _).
    + destruct (createContext _ _ _) as [[c|err] e2];
        cbn [io Metrics cleanupHooks outside trace]; rewrite <- ?app_assoc; cbn [app].
      * destruct (runTemplates _ _ _) as [r s2]. by destruct (runHooks _ _ _).
      * by destruct (runHooks _ _ _).
  - by destruct (runHooks _ _ _).
Qed.

(** X12: when the data sources cannot be set up, [RunTemplates] returns
    that error having resolved no alias, created no context and gathered
    nothing; no hook is registered, and the counters are left at their
    reset values, [Errors] included. *)
Theorem RunTemplates_NewData_failure o (s : state) e e1 :
  NewData (DataSources (defaults o) ++ Contexts (defaults o))
          (DataSourceHeaders (defaults o)) (outside (io s)) = (Err e, e1) →
  (RunTemplates o s).1 = Some e
  ∧ Metrics ((RunTemplates o s).2) = newMetrics
  ∧ cleanupHooks ((RunTemplates o s).2) = cleanupHooks s
  ∧ trace (io ((RunTemplates o s).2))
    = trace (io s) ++ EvNewData :: replicate (length (cleanupHooks s)) EvCleanup.
Proof.
  intros HD. rewrite RunTemplates_unfold. cbv zeta. rewrite HD.
  cbn [fst snd io Metrics cleanupHooks]. repeat split.
  rewrite runHooks_trace. cbn [trace]. by rewrite <- app_assoc.
Qed.

(** X13: when alias resolution fails, the counters are left at their reset
    values: the run returns the error, but [Errors] is not incremented and
    no other counter is set. *)
Theorem RunTemplates_alias_failure_counters o (s : state) d e1 pre a post e :
  NewData (DataSources (defaults o) ++ Contexts (defaults o))
          (DataSourceHeaders (defaults o)) (outside (io s)) = (Ok d, e1) →
  Templates (defaults o) = pre ++ a :: post →
  Forall (Aliases.resolves (Stat e1) (ReadDir e1)) pre →
  Aliases.failsWith (Stat e1) (ReadDir e1) a e →
  (RunTemplates o s).1 = Some e
  ∧ Metrics ((RunTemplates o s).2) = newMetrics
  ∧ Errors (Metrics ((RunTemplates o s).2)) = 0%Z.
Proof.
  intros HD HT Hpre Ha.
  assert (Aliases.parseTemplateArgs (Stat e1) (ReadDir e1) (Templates (defaults o))
          = (None, Some e)) as Hparse.
  { rewrite HT. apply AliasSpec.parseLoop_first_error.
    - eapply Forall_impl; [exact Hpre|]. intros b. apply AliasSpec.resolves_argError.
    - by apply AliasSpec.failsWith_argError. }
  rewrite RunTemplates_unfold. cbv zeta. rewrite HD, Hparse. done.
Qed.



Lemma runTemplates_fresh g o (s : state) :
  Metrics s = newMetrics →
  (∀ w, (Z.of_nat (length (gatherTemplates o (chooseNamer o g) w).1.1) < 2 ^ 63)%Z) →
  (Errors (Metrics ((runTemplates g o s).2)) = 0%Z
   ∨ Errors (Metrics ((runTemplates g o s).2)) = 1%Z)
  ∧ (Errors (Metrics ((runTemplates g o s).2)) = 1%Z ↔ (runTemplates g o s).1 ≠ None)
  ∧ (0 ≤ TemplatesProcessed (Metrics ((runTemplates g o s).2))
     ≤ TemplatesGathered (Metrics ((runTemplates g o s).2)))%Z
  ∧ ((runTemplates g o s).1 = None →
     TemplatesProcessed (Metrics ((runTemplates g o s).2))
     = TemplatesGathered (Metrics ((runTemplates g o s).2))).
Proof.
  intros Hfresh Hbound.
  destruct (gathered g o (io s)) as [[ts [e|]] w1] eqn:Hg.
  - rewrite (runTemplates_gather_fails _ _ _ _ _ _ Hg), Hfresh. cbn.
    repeat split; try done; try lia; try (by right).
  - assert (Z.of_nat (length ts) < 2 ^ 63)%Z as Hlen.
    { unfold Gomplate.gathered in Hg. revert Hg. st_unfold. cbv beta iota.
      intros Hg.
      specialize (Hbound {| outside := outside (io s);
                            trace := trace (io s) ++ [EvGather] |}).
      by rewrite Hg in Hbound. }
    rewrite (runTemplates_unfold _ _ _ _ _ Hg). cbv zeta.
    set (s1 := {| io := w1; Metrics := _; cleanupHooks := _ |}).
    destruct (renderLoop_run g ts s1) as (k & Hk & _ & Hres & Htg & _);
      [cbn; rewrite Hfresh; cbn; lia|cbn; rewrite Hfresh; cbn; lia|].
    destruct (renderLoop g ts s1) as [r s2].
    cbn [fst snd io Metrics TemplatesGathered TemplatesProcessed Errors
         setTotalRenderDuration] in *.
    assert (TemplatesProcessed (Metrics s1) = 0%Z) as Htp1
      by (cbn; by rewrite Hfresh).
    assert (Errors (Metrics s1) = 0%Z) as Herr1 by (cbn; by rewrite Hfresh).
    assert (TemplatesGathered (Metrics s1) = Z.of_nat (length ts)) as Htg1 by done.
    rewrite Htp1, Herr1 in Hres. rewrite Htg, Htg1.
    destruct r as [e|]; destruct Hres as (H1 & H2 & H3); rewrite H2, H3.
    + change (wrapInt (0 + 1)) with 1%Z.
      repeat split; try done; try lia; try (by right).
    + repeat split; try done; try lia; try (by left).
Qed.

(** X16: after any run, as long as the gatherer returns fewer than 2^63
    descriptors: [Errors] is 0 or 1, and 1 only if the run returned an
    error; [TemplatesProcessed] lies between 0 and [TemplatesGathered];
    and a run that returns nil has processed every gathered template with
    no error counted.  This holds whatever the metrics were before the
    run. *)
Theorem RunTemplates_counters o (s : state) :
  (∀ g w, (Z.of_nat (length (gatherTemplates (defaults o)
                               (chooseNamer (defaults o) g) w).1.1) < 2 ^ 63)%Z) →
  (Errors (Metrics ((RunTemplates o s).2)) = 0%Z
   ∨ Errors (Metrics ((RunTemplates o s).2)) = 1%Z)
  ∧ (Errors (Metrics ((RunTemplates o s).2)) = 1%Z → (RunTemplates o s).1 ≠ None)
  ∧ (0 ≤ TemplatesProcessed (Metrics ((RunTemplates o s).2))
     ≤ TemplatesGathered (Metrics ((RunTemplates o s).2)))%Z
  ∧ ((RunTemplates o s).1 = None →
     Errors (Metrics ((RunTemplates o s).2)) = 0%Z
     ∧ TemplatesProcessed (Metrics ((RunTemplates o s).2))
       = TemplatesGathered (Metrics ((RunTemplates o s).2))).
Proof.
  intros Hbound. rewrite RunTemplates_unfold. cbv zeta.
  destruct (NewData _ _ _) as [[d|err] e1].
  - destruct (Aliases.parseTemplateArgs _ _ _) as [nested [err|]].
    + cbn. repeat split; try done; try lia; try (by left).
    + destruct (createContext _ _ _) as [[c|err] e2].
      * set (g := newGomplate _ _ _ _ _ _).
        set (s1 := {| io := _; Metrics := newMetrics; cleanupHooks := _ |}).
        destruct (runTemplates_fresh g (defaults o) s1 eq_refl (Hbound g))
          as (H1 & H2 & H3 & H4).
        destruct (runTemplates g (defaults o) s1) as [r s2].
        cbn [fst snd io Metrics cleanupHooks] in *.
        split; [done|]. split; [by apply H2|]. split; [done|].
        intros ->. split; [|by apply H4].
        destruct H1 as [H1|H1]; [done|]. by apply H2 in H1.
      * cbn. repeat split; try done; try lia; try (by left).
  - cbn. repeat split; try done; try lia; try (by left).
Qed.


End Engine.
End EngineSpec.

(** ** Option validation *)

Module MainOptsSpec.
Import MainOpts.

(** X1: [validateOpts] accepts exactly the option sets in which [--in] and
    [--file] are not both given, there are as many [--out] as [--file]
    values, [--input-dir] comes without [--in] and [--file], [--output-dir]
    comes with [--input-dir] and without [--out], and [--output-map] comes
    with [--input-dir] and without [--out] and [--output-dir]. *)
Theorem validateOpts_accepts_iff (Changed : string → bool) (opts : Config) :
  validateOpts Changed opts = None
  ↔ ¬ (Changed "in" = true ∧ Changed "file" = true)
    ∧ length (InputFiles opts) = length (OutputFiles opts)
    ∧ (Changed "input-dir" = true → Changed "in" = false ∧ Changed "file" = false)
    ∧ (Changed "output-dir" = true →
         Changed "out" = false ∧ Changed "input-dir" = true)
    ∧ (Changed "output-map" = true →
         Changed "out" = false ∧ Changed "output-dir" = false
         ∧ Changed "input-dir" = true).
Proof.
  unfold validateOpts.
  destruct (Nat.eqb_spec (length (InputFiles opts)) (length (OutputFiles opts)))
    as [Hlen|Hlen];
    destruct (Changed "in"), (Changed "file"), (Changed "input-dir"),
      (Changed "output-dir"), (Changed "out"), (Changed "output-map");
    cbn [andb orb negb];
    (split;
     [ intros H; try discriminate H; intuition congruence
     | intros (H1 & H2 & H3 & H4 & H5); try reflexivity; exfalso;
       intuition congruence ]).
Qed.

(** X2: unless [--in] and [--file] are both given, unequal numbers of
    [--file] and [--out] values are rejected, whatever else is set, with a
    message that names both numbers. *)
Theorem validateOpts_count_mismatch (Changed : string → bool) (opts : Config) :
  ¬ (Changed "in" = true ∧ Changed "file" = true) →
  length (InputFiles opts) ≠ length (OutputFiles opts) →
  validateOpts Changed opts
  = Some ("must provide same number of --out (" +:+ itoa (length (OutputFiles opts))
          +:+ ") as --file (" +:+ itoa (length (InputFiles opts)) +:+ ") options").
Proof.
  intros Hboth Hlen. unfold validateOpts.
  destruct (Changed "in"), (Changed "file"); cbn [andb];
    try (exfalso; apply Hboth; by split);
    by destruct (Nat.eqb_spec (length (InputFiles opts)) (length (OutputFiles opts))).
Qed.

End MainOptsSpec.

(** ** Rendering one template *)

Module RenderSpec.
Section RenderTemplate.
Context {error value Data FuncMap template reader ext : Type}.
Variable Funcs : Data → FuncMap.
Variable NewData : list string → list string → ext → result error Data * ext.
Variable Cleanup : Data → ext → ext.
Variable toGoTemplate : tplate → @gomplate value FuncMap → ext → result error template * ext.
Variable Execute : template → writer → iface value → ext → (string * option error) * ext.
Variable Close : writer → ext → ext.
Variable ReadAll : reader → ext → result error string * ext.

Local Abbreviation runTemplate := (runTemplate toGoTemplate Execute Close).
Local Abbreviation RenderTemplate :=
  (Render.RenderTemplate Funcs NewData Cleanup toGoTemplate Execute Close ReadAll).

(** The engine and the descriptor [RenderTemplate] builds. *)
Local Abbreviation engine d opts :=
  {| funcMap := Funcs d;
     leftDelim := match opts with Some o => Options.LDelim o | None => "" end;
     rightDelim := match opts with Some o => Options.RDelim o | None => "" end;
     nestedTemplates := ∅;
     context := INil |}.

Lemma RenderTemplate_unfold in_ out opts (s : @state Data ext) :
  let finish (r : option error) (s' : state) :=
    (r, {| io := (runHooks Cleanup (cleanupHooks s') (io s')).2;
           Metrics := Metrics s';
           cleanupHooks := cleanupHooks s' |}) in
  RenderTemplate in_ out opts s
  = match NewData [] [] (outside (io s)) with
    | (Err err, e1) =>
        (Some err,
         {| io := {| outside := e1; trace := trace (io s) ++ [EvNewData] |};
            Metrics := Metrics s;
            cleanupHooks := cleanupHooks s |})
    | (Ok d, e1) =>
        match ReadAll in_ e1 with
        | (Err err, e2) =>
            finish (Some err)
                   {| io := {| outside := e2; trace := trace (io s) ++ [EvNewData] |};
                      Metrics := Metrics s;
                      cleanupHooks := cleanupHooks s ++ [d] |}
        | (Ok i, e2) =>
            let '(r, w) :=
              runTemplate (engine d opts)
                          {| name := ""; contents := i; target := out |}
                          {| outside := e2; trace := trace (io s) ++ [EvNewData] |} in
            finish r {| io := w; Metrics := Metrics s;
                        cleanupHooks := cleanupHooks s ++ [d] |}
        end
    end.
Proof.
  intros finish. subst finish.
  unfold Render.RenderTemplate, Render.quiet, runCleanupHooks, addCleanupHook,
    newGomplate.
  unfold mbind, St_bind, mret, St_ret, call, liftIO, modify, gets. cbv beta iota.
  cbn [io Metrics cleanupHooks outside trace].
  destruct (NewData [] [] (outside (io s))) as [[d|err] e1];
    cbn [io Metrics cleanupHooks outside trace]; [|done].
  destruct (ReadAll in_ e1) as [[i|err] e2];
    cbn [io Metrics cleanupHooks outside trace].
  - destruct opts as [opts|];
      destruct (runTemplate _ _ _) as [[err|] w];
      cbn [io Metrics cleanupHooks outside trace];
      by destruct (runHooks _ _ _).
  - by destruct (runHooks _ _ _).
Qed.

(** X18: once the data sources are set up, the input is read and the
    template compiles, [RenderTemplate] executes it against the nil
    context, with no auxiliary templates and with the delimiters of the
    options (empty for nil options), closes the writer it was given if that
    is an [io.Closer] other than [os.Stdout], then runs the hooks; it
    returns what executing the template returned.  The outside world it
    leaves is the one [Execute] left, with [Close] applied to the writer in
    that case and not otherwise, and then the cleanups applied, the one of
    these data sources first. *)
Theorem RenderTemplate_closes_writer in_ out opts (s : @state Data ext)
        d e1 i e2 tmpl e3 :
  let t := {| name := ""; contents := i; target := out |} in
  NewData [] [] (outside (io s)) = (Ok d, e1) →
  ReadAll in_ e1 = (Ok i, e2) →
  toGoTemplate t (engine d opts) e2 = (Ok tmpl, e3) →
  (RenderTemplate in_ out opts s).1 = (Execute tmpl out INil e3).1.2
  ∧ trace (io ((RenderTemplate in_ out opts s).2))
    = trace (io s) ++ [EvNewData; EvParse t; EvExecute t]
      ++ (if isCloser out && bool_decide (out ≠ Stdout) then [EvClose out] else [])
      ++ replicate (S (length (cleanupHooks s))) EvCleanup
  ∧ outside (io ((RenderTemplate in_ out opts s).2))
    = foldr Cleanup
            (Cleanup d (if isCloser out && bool_decide (out ≠ Stdout)
                        then Close out (Execute tmpl out INil e3).2
                        else (Execute tmpl out INil e3).2))
            (cleanupHooks s).
Proof.
  intros t HD HR HT. rewrite RenderTemplate_unfold. cbv zeta. rewrite HD, HR.
  rewrite EngineSpec.runTemplate_unfold. fold t. cbn [outside trace]. rewrite HT.
  change (target t) with out. change (context (engine d opts)) with (@INil value).
  destruct (Execute tmpl out INil e3) as [[written err] e4].
  destruct (isCloser out && bool_decide (out ≠ Stdout));
    cbn [fst snd io Metrics cleanupHooks];
    (split; [done|]);
    rewrite (EngineSpec.runHooks_trace Cleanup), (EngineSpec.runHooks_outside Cleanup);
    cbn [trace outside];
    rewrite length_app, foldr_app; cbn [length foldr];
    replace (length (cleanupHooks s) + 1)%nat with (S (length (cleanupHooks s))) by lia;
    by rewrite <- !app_assoc.
Qed.


(** X20: when the data sources cannot be set up, [RenderTemplate] returns
    that error at once: the input is not read, no hook is registered and
    none is run. *)
Theorem RenderTemplate_NewData_failure in_ out opts (s : @state Data ext) e e1 :
  NewData [] [] (outside (io s)) = (Err e, e1) →
  RenderTemplate in_ out opts s
  = (Some e,
     {| io := {| outside := e1; trace := trace (io s) ++ [EvNewData] |};
        Metrics := Metrics s;
        cleanupHooks := cleanupHooks s |}).
Proof. intros HD. rewrite RenderTemplate_unfold. cbv zeta. by rewrite HD. Qed.

(** X21: [RenderTemplate] never touches the metrics, and never creates a
    context or gathers templates, whatever happens. *)
Theorem RenderTemplate_leaves_metrics in_ out opts (s : @state Data ext) :
  Metrics ((RenderTemplate in_ out opts s).2) = Metrics s
  ∧ ∃ evs, trace (io ((RenderTemplate in_ out opts s).2)) = trace (io s) ++ evs
           ∧ (EvGather ∉ evs) ∧ (EvCreateContext ∉ evs).
Proof.
  rewrite RenderTemplate_unfold. cbv zeta.
  assert (∀ n, (EvGather ∉ replicate n EvCleanup)
               ∧ (EvCreateContext ∉ replicate n EvCleanup)) as Hrep.
  { intros n. split; intros [H _]%elem_of_replicate; discriminate H. }
  destruct (NewData [] [] (outside (io s))) as [[d|err] e1].
  - destruct (ReadAll in_ e1) as [[i|err] e2].
    + rewrite EngineSpec.runTemplate_unfold.
      set (t := {| name := ""; contents := i; target := out |}).
      assert (∀ evs0 (w : @world ext) hooks,
                 trace w = (trace (io s) ++ [EvNewData]) ++ evs0 →
                 EvGather ∉ evs0 → EvCreateContext ∉ evs0 →
                 ∃ evs, trace ((runHooks Cleanup hooks w).2) = trace (io s) ++ evs
                        ∧ (EvGather ∉ evs) ∧ (EvCreateContext ∉ evs)) as Hfin.
      { intros evs0 w hooks Hw H1 H2.
        exists (EvNewData :: evs0 ++ replicate (length hooks) EvCleanup).
        rewrite (EngineSpec.runHooks_trace Cleanup), Hw, <- !app_assoc.
        split; [done|].
        rewrite !not_elem_of_cons, !not_elem_of_app.
        destruct (Hrep (length hooks)). by repeat split. }
      cbn [outside trace].
      destruct (toGoTemplate t (engine d opts) e2) as [[tmpl|err] e3].
      * destruct (Execute tmpl _ _ e3) as [[written err] e4].
        destruct (isCloser (target t) && bool_decide (target t ≠ Stdout));
          cbn [fst snd io Metrics cleanupHooks]; (split; [done|]).
        -- apply (Hfin [EvParse t; EvExecute t; EvClose (target t)]); [done| |];
             rewrite !not_elem_of_cons; repeat split; try done; apply not_elem_of_nil.
        -- apply (Hfin [EvParse t; EvExecute t]); [done| |];
             rewrite !not_elem_of_cons; repeat split; try done; apply not_elem_of_nil.
      * cbn [fst snd io Metrics cleanupHooks]. split; [done|].
        apply (Hfin [EvParse t]); [done| |];
          rewrite !not_elem_of_cons; repeat split; try done; apply not_elem_of_nil.
    + cbn [fst snd io Metrics cleanupHooks]. split; [done|].
      exists (EvNewData :: replicate (length (cleanupHooks s ++ [d])) EvCleanup).
      rewrite (EngineSpec.runHooks_trace Cleanup). cbn [trace].
      rewrite <- app_assoc. split; [done|].
      rewrite !not_elem_of_cons.
      destruct (Hrep (length (cleanupHooks s ++ [d]))). by repeat split.
  - cbn [fst snd io Metrics cleanupHooks]. split; [done|].
    exists [EvNewData]. split; [done|].
    rewrite !not_elem_of_cons. repeat split; try done; apply not_elem_of_nil.
Qed.

End RenderTemplate.
End RenderSpec.

(** ** [path.Clean], element by element *)

Module PathSpec.
Import GoPath PathModel.

(** *** Elements *)

Lemma split_nonempty p : split p ≠ [].
Proof.
  destruct p as [|c rest]; cbn [split]; [done|].
  destruct (isSlash c); [done|]. by destruct (split rest).
Qed.

Lemma isSlash_true c : isSlash c = true ↔ c = slash.
Proof. unfold isSlash. apply Ascii.eqb_eq. Qed.

Lemma isSlash_false c : isSlash c = false ↔ c ≠ slash.
Proof. unfold isSlash. apply Ascii.eqb_neq. Qed.

Lemma isSlash_neq c : isSlash c = false → slash ≠ c.
Proof. intros H Heq. apply isSlash_false in H. congruence. Qed.

Lemma neq_isSlash c : slash ≠ c → isSlash c = false.
Proof. intros H. apply isSlash_false. congruence. Qed.

Lemma isDot_true c : isDot c = true ↔ c = dot.
Proof. unfold isDot. apply Ascii.eqb_eq. Qed.

Lemma split_cons_noslash c rest :
  isSlash c = false →
  ∃ h t, split rest = h :: t ∧ split (c :: rest) = (c :: h) :: t.
Proof.
  intros Hc. cbn [split]. rewrite Hc.
  destruct (split rest) as [|h t] eqn:Hs; [by apply split_nonempty in Hs|].
  by exists h, t.
Qed.

Lemma split_noslash s : slash ∉ s → split s = [s].
Proof.
  induction s as [|c s IH]; [done|].
  rewrite not_elem_of_cons. intros [Hc Hs].
  cbn [split]. rewrite (neq_isSlash c) by done. by rewrite IH.
Qed.

Lemma split_app a b : split (a ++ slash :: b) = split a ++ split b.
Proof.
  induction a as [|c a IH]; [done|].
  cbn [app split]. destruct (isSlash c); [by rewrite IH|].
  rewrite IH. destruct (split a) as [|h t] eqn:Hs; [by apply split_nonempty in Hs|].
  done.
Qed.

Lemma split_Forall_noslash p : Forall (λ s, slash ∉ s) (split p).
Proof.
  induction p as [|c rest IH]; cbn [split].
  - constructor; [apply not_elem_of_nil|constructor].
  - destruct (isSlash c) eqn:Hc.
    + constructor; [apply not_elem_of_nil|done].
    + destruct (split rest) as [|h t]; [repeat constructor|].
      * rewrite not_elem_of_cons. split; [by apply isSlash_neq|apply not_elem_of_nil].
      * apply Forall_cons in IH as [Hh Ht]. constructor; [|done].
        rewrite not_elem_of_cons. split; [by apply isSlash_neq|done].
Qed.

(** [atBoundary rest] says that the element [rest] starts with is empty. *)
Lemma atBoundary_split rest :
  atBoundary rest = true ↔ ∃ t, split rest = [] :: t.
Proof.
  destruct rest as [|c rest]; cbn [atBoundary split].
  - split; [by eexists|done].
  - destruct (isSlash c) eqn:Hc.
    + split; [by eexists|done].
    + split; [done|]. intros [t Ht].
      by destruct (split rest).
Qed.

Lemma split_joinSegs l :
  l ≠ [] → Forall (λ s, slash ∉ s) l → split (joinSegs l) = l.
Proof.
  induction l as [|s l IH]; [done|]. intros _ Hall.
  apply Forall_cons in Hall as [Hs Hl].
  destruct l as [|s' l].
  - cbn [joinSegs]. by apply split_noslash.
  - change (joinSegs (s :: s' :: l)) with (s ++ slash :: joinSegs (s' :: l)).
    rewrite split_app, split_noslash by done. by rewrite IH.
Qed.

Lemma joinSegs_snoc_char l s c :
  joinSegs (l ++ [s ++ [c]]) = joinSegs (l ++ [s]) ++ [c].
Proof.
  induction l as [|s0 l IH]; [done|].
  destruct l as [|s1 l].
  - cbn [app joinSegs]. by rewrite <- app_assoc.
  - change (joinSegs ((s0 :: s1 :: l) ++ [s ++ [c]]))
      with (s0 ++ slash :: joinSegs ((s1 :: l) ++ [s ++ [c]])).
    change (joinSegs ((s0 :: s1 :: l) ++ [s]))
      with (s0 ++ slash :: joinSegs ((s1 :: l) ++ [s])).
    rewrite IH. by rewrite <- app_assoc.
Qed.

Lemma joinSegs_snoc l s :
  l ≠ [] → joinSegs (l ++ [s]) = joinSegs l ++ slash :: s.
Proof.
  induction l as [|s0 l IH]; [done|]. intros _.
  destruct l as [|s1 l]; [done|].
  change (joinSegs ((s0 :: s1 :: l) ++ [s]))
    with (s0 ++ slash :: joinSegs ((s1 :: l) ++ [s])).
  rewrite IH by done.
  change (joinSegs (s0 :: s1 :: l)) with (s0 ++ slash :: joinSegs (s1 :: l)).
  by rewrite <- app_assoc.
Qed.

(** *** The buffer *)

Lemma backtrack_name (dotdot : nat) (B sep m : list ascii) (c0 : ascii) :
  slash ∉ m → slash ≠ c0 →
  (sep = [slash] ∧ (dotdot ≤ length B)%nat) ∨ (sep = [] ∧ dotdot = length B) →
  backtrack dotdot (rev (B ++ sep ++ m)) c0 = rev B.
Proof.
  intros Hm Hc0 Hsep. revert c0 Hc0.
  induction m as [|x m IH] using rev_ind; intros c0 Hc0.
  - rewrite app_nil_r.
    destruct Hsep as [[-> Hdd]|[-> Hdd]].
    + rewrite rev_app_distr. cbn [rev app backtrack].
      replace (dotdot <? length (slash :: rev B))%nat with true
        by (symmetry; apply Nat.ltb_lt; cbn [length]; rewrite length_rev; lia).
      rewrite (neq_isSlash c0) by done. cbn [negb andb].
      destruct (rev B) as [|c b']; [done|]. cbn [backtrack].
      replace (isSlash slash) with true by done.
      by rewrite andb_false_r.
    + rewrite app_nil_r.
      destruct (rev B) as [|c b'] eqn:HB; [done|]. cbn [backtrack].
      replace (dotdot <? length (c :: b'))%nat with false; [done|].
      symmetry. apply Nat.ltb_ge. rewrite <- HB, length_rev. lia.
  - apply not_elem_of_app in Hm as [Hm Hx].
    rewrite !app_assoc, rev_app_distr. cbn [rev app backtrack].
    replace (dotdot <? _)%nat with true.
    + rewrite (neq_isSlash c0) by done. cbn [negb andb].
      rewrite <- app_assoc. apply IH; [done|].
      rewrite not_elem_of_cons in Hx. by destruct Hx.
    + symmetry. apply Nat.ltb_lt. cbn [length].
      rewrite length_rev, !length_app.
      destruct Hsep as [[-> Hdd]|[-> Hdd]]; cbn [length]; lia.
Qed.

Lemma elements_push dd x names :
  elements (dd, x :: names) = elements (dd, names) ++ [x].
Proof. unfold elements. cbn [fst snd rev]. by rewrite app_assoc. Qed.

Lemma elements_dotdot dd :
  elements (S dd, []) = elements (dd, []) ++ [[dot; dot]].
Proof.
  unfold elements. cbn [fst snd rev]. by rewrite !app_nil_r, replicate_S_end.
Qed.

Lemma joinSegs_snoc_cases l s :
  joinSegs (l ++ [s])
  = match l with
    | [] => s
    | _ :: _ => joinSegs l ++ slash :: s
    end.
Proof. destruct l as [|s0 l]; [done|]. by apply joinSegs_snoc. Qed.

Lemma joinSegs_nil l : Forall (λ s, s ≠ []) l → joinSegs l = [] → l = [].
Proof.
  destruct l as [|s l]; [done|]. intros Hall%Forall_cons. destruct Hall as [Hs _].
  destruct l as [|s' l]; cbn [joinSegs]; [done|].
  intros H. by apply app_eq_nil in H as [? _].
Qed.

Lemma joinSegs_app_le l l' :
  (length (joinSegs l) ≤ length (joinSegs (l ++ l')))%nat.
Proof.
  revert l. induction l' as [|s l' IH] using rev_ind; intros l.
  - by rewrite app_nil_r.
  - rewrite app_assoc, joinSegs_snoc_cases.
    specialize (IH l).
    destruct (l ++ l') as [|s0 l0] eqn:Hl.
    + apply app_eq_nil in Hl as [-> _]. cbn. lia.
    + rewrite length_app. cbn [length]. lia.
Qed.

Lemma isName_nonempty s : isName s → s ≠ [].
Proof. by intros [? _]. Qed.

Lemma elements_nonempty rooted st :
  cleanForm rooted st → Forall (λ s, s ≠ []) (elements st).
Proof.
  intros [Hnames _]. unfold elements. apply Forall_app. split.
  - apply Forall_replicate. done.
  - apply Forall_rev. eapply Forall_impl; [exact Hnames|]. apply isName_nonempty.
Qed.

Lemma render_push rooted st x :
  render rooted (st.1, x :: st.2)
  = render rooted st
    ++ match elements st with [] => [] | _ :: _ => [slash] end ++ x.
Proof.
  destruct st as [dd names]. unfold render. cbn [fst snd].
  rewrite elements_push, joinSegs_snoc_cases.
  destruct (elements (dd, names)); [by rewrite app_nil_r|].
  by rewrite <- !app_assoc.
Qed.

Lemma render_push_char rooted dd part c names :
  render rooted (dd, (part ++ [c]) :: names)
  = render rooted (dd, part :: names) ++ [c].
Proof.
  unfold render. rewrite !elements_push, joinSegs_snoc_char.
  by rewrite app_assoc.
Qed.

Lemma ddlen_le rooted st : (ddlen rooted st.1 ≤ length (render rooted st))%nat.
Proof.
  destruct st as [dd names]. unfold ddlen, render, elements. cbn [fst snd rev].
  rewrite app_nil_r, !length_app.
  pose proof (joinSegs_app_le (replicate dd [dot; dot]) (rev names)). lia.
Qed.

Lemma length_render_names rooted st :
  cleanForm rooted st → st.2 ≠ [] →
  (ddlen rooted st.1 < length (render rooted st))%nat.
Proof.
  destruct st as [dd [|n names]]; [done|]. intros [Hnames Hroot] _.
  cbn [fst snd] in *. apply Forall_cons in Hnames as [[Hn _] Hnames].
  pose proof (render_push rooted (dd, names) n) as Hpush. cbn [fst snd] in Hpush.
  rewrite Hpush, !length_app.
  pose proof (ddlen_le rooted (dd, names)) as Hle. cbn [fst] in Hle.
  destruct n; [done|]. cbn [length]. lia.
Qed.

(** The test of the default case: a separator is due exactly when the
    buffer holds an element already. *)
Lemma separator_due rooted st :
  cleanForm rooted st →
  (rooted && negb (length (render rooted st) =? 1)%nat)
  || (negb rooted && negb (length (render rooted st) =? 0)%nat)
  = match elements st with [] => false | _ :: _ => true end.
Proof.
  intros Hform. pose proof (elements_nonempty _ _ Hform) as Hne.
  unfold render. rewrite length_app.
  destruct (joinSegs (elements st)) as [|c j] eqn:Hj.
  - apply joinSegs_nil in Hj; [|done]. rewrite Hj. by destruct rooted.
  - destruct (elements st); [done|]. destruct rooted; cbn [length app]; done.
Qed.

(** *** Recognising the element the loop is at *)

Lemma first_dot c rest h t :
  isSlash c = false → split rest = h :: t →
  isDotSeg (c :: h) = isDot c && atBoundary rest.
Proof.
  intros Hc Hrest. destruct h as [|c' h].
  - replace (atBoundary rest) with true; [cbn; by rewrite andb_true_r|].
    symmetry. apply atBoundary_split. by exists t.
  - replace (atBoundary rest) with false; [cbn; by rewrite andb_false_r|].
    symmetry. apply not_true_is_false. intros [t' Ht']%atBoundary_split. congruence.
Qed.

Lemma first_dotdot c rest h t :
  isSlash c = false → split rest = h :: t →
  isDotDotSeg (c :: h)
  = match rest with
    | c2 :: rest2 => isDot c && isDot c2 && atBoundary rest2
    | [] => false
    end.
Proof.
  intros Hc Hrest. destruct rest as [|c2 rest2].
  - injection Hrest as <- <-. done.
  - cbn [split] in Hrest. destruct (isSlash c2) eqn:Hc2.
    + injection Hrest as <- <-. apply isSlash_true in Hc2 as ->.
      cbn. by rewrite andb_false_r.
    + destruct (split rest2) as [|h2 t2] eqn:H2; [by apply split_nonempty in H2|].
      injection Hrest as <- <-.
      destruct h2 as [|c3 h2].
      * replace (atBoundary rest2) with true; [cbn; by rewrite andb_true_r|].
        symmetry. apply atBoundary_split. by exists t2.
      * replace (atBoundary rest2) with false; [cbn; by rewrite andb_false_r|].
        symmetry. apply not_true_is_false. intros [t' Ht']%atBoundary_split.
        congruence.
Qed.

(** *** Clean forms are kept *)

Lemma cleanForm_push rooted st x :
  cleanForm rooted st → isName x → cleanForm rooted (st.1, x :: st.2).
Proof. intros [Hn Hr] Hx. split; [by constructor|done]. Qed.

Lemma cleanForm_step rooted st seg :
  cleanForm rooted st → slash ∉ seg → cleanForm rooted (step rooted st seg).
Proof.
  intros Hform Hseg. unfold step. destruct seg as [|c seg]; [done|].
  destruct (isDotSeg (c :: seg)) eqn:Hdot; [done|].
  destruct (isDotDotSeg (c :: seg)) eqn:Hdd.
  - destruct Hform as [Hn Hr]. destruct st as [dd [|n names]]; cbn [fst snd] in *.
    + destruct rooted; [done|]. split; [constructor|done].
    + apply Forall_cons in Hn as [_ Hn]. by split.
  - by apply cleanForm_push.
Qed.

Lemma cleanForm_foldl rooted st segs :
  cleanForm rooted st → Forall (λ s, slash ∉ s) segs →
  cleanForm rooted (foldl (step rooted) st segs).
Proof.
  revert st. induction segs as [|seg segs IH]; intros st Hform Hall; [done|].
  apply Forall_cons in Hall as [Hseg Hall]. cbn [foldl].
  apply IH; [by apply cleanForm_step|done].
Qed.

(** *** The loop of [Clean] follows the elements *)

(** Entering the default case: the separator, if due, and the first byte
    of the name. *)
Lemma buffer_enter_name rooted st c :
  cleanForm rooted st →
  c :: (if (rooted && negb (length (rev (render rooted st)) =? 1)%nat)
           || (negb rooted && negb (length (rev (render rooted st)) =? 0)%nat)
        then slash :: rev (render rooted st) else rev (render rooted st))
  = rev (render rooted (st.1, [c] :: st.2)).
Proof.
  intros Hform. rewrite length_rev, (separator_due _ _ Hform), render_push.
  destruct (elements st); rewrite !rev_app_distr; cbn [rev app]; done.
Qed.

(** Keeping a [..] in front of a path that is not rooted. *)
Lemma buffer_keep_dotdot dd :
  dot :: dot :: (if (0 <? length (rev (render false (dd, []))))%nat
                 then slash :: rev (render false (dd, []))
                 else rev (render false (dd, [])))
  = rev (render false (S dd, [])).
Proof.
  unfold render. cbn [app]. rewrite elements_dotdot, joinSegs_snoc_cases, length_rev.
  destruct dd as [|dd]; [done|].
  assert (elements (S dd, []) = [dot; dot] :: elements (dd, [])) as -> by done.
  replace (0 <? length (joinSegs ([dot; dot] :: elements (dd, []))))%nat with true
    by (by destruct (elements (dd, []))).
  rewrite rev_app_distr. done.
Qed.

(** Removing the innermost name. *)
Lemma buffer_pop_name rooted dd n names :
  cleanForm rooted (dd, n :: names) →
  match rev (render rooted (dd, n :: names)) with
  | c0 :: out' => backtrack (ddlen rooted dd) out' c0
  | [] => []
  end = rev (render rooted (dd, names)).
Proof.
  intros [Hnames Hroot]. cbn [fst snd] in *.
  apply Forall_cons in Hnames as [(Hne & Hslash & _) Hnames].
  pose proof (render_push rooted (dd, names) n) as Hpush. cbn [fst snd] in Hpush.
  rewrite Hpush.
  destruct (exists_last Hne) as (m & c0 & ->).
  rewrite !app_assoc, rev_app_distr. cbn [rev app]. rewrite <- app_assoc.
  apply not_elem_of_app in Hslash as [Hm Hc0].
  rewrite not_elem_of_cons in Hc0. destruct Hc0 as [Hc0 _].
  apply backtrack_name; [done|done|].
  destruct (elements (dd, names)) as [|s0 l] eqn:Hel.
  - right. split; [done|].
    unfold elements in Hel. cbn [fst snd] in Hel.
    apply app_eq_nil in Hel as [Hrep Hrev].
    destruct dd; [|done].
    destruct names as [|n' names']; [done|].
    cbn [rev] in Hrev. by apply app_eq_nil in Hrev as [_ ?].
  - left. split; [done|]. apply (ddlen_le rooted (dd, names)).
Qed.

Lemma cleanLoop_follows rooted (n : nat) :
  ∀ p, (length p ≤ n)%nat →
    (∀ st, cleanForm rooted st →
       cleanLoop rooted false (ddlen rooted st.1) (rev (render rooted st)) p
       = rev (render rooted (foldl (step rooted) st (split p))))
    ∧ (∀ st part, cleanForm rooted st → part ≠ [] → slash ∉ part →
       isDotSeg (part ++ hd [] (split p)) = false →
       isDotDotSeg (part ++ hd [] (split p)) = false →
       cleanLoop rooted true (ddlen rooted st.1)
                 (rev (render rooted (st.1, part :: st.2))) p
       = rev (render rooted
                (foldl (step rooted) (st.1, (part ++ hd [] (split p)) :: st.2)
                       (tl (split p))))).
Proof.
  induction n as [|n IH]; intros p Hlen.
  { destruct p; [|cbn in Hlen; lia]. split.
    - intros st _. done.
    - intros st part _ _ _ _ _. cbn [split hd tl foldl cleanLoop]. by rewrite app_nil_r. }
  destruct p as [|c rest].
  { split.
    - intros st _. done.
    - intros st part _ _ _ _ _. cbn [split hd tl foldl cleanLoop]. by rewrite app_nil_r. }
  cbn [length] in Hlen.
  destruct (IH rest ltac:(lia)) as [IHfree IHmid].
  split.
  - (* between elements *)
    intros st Hform. cbn [cleanLoop].
    destruct (isSlash c) eqn:Hc.
    { cbn [split]. rewrite Hc. cbn [foldl step]. by apply IHfree. }
    destruct (split_cons_noslash c rest Hc) as (h & t & Hrest & Hp).
    rewrite Hp. cbn [foldl].
    pose proof (first_dot c rest h t Hc Hrest) as Hdot.
    pose proof (first_dotdot c rest h t Hc Hrest) as Hdd.
    rewrite <- Hdot.
    assert (step rooted st (c :: h)
            = if isDotSeg (c :: h) then st
              else if isDotDotSeg (c :: h) then
                     match st.2 with
                     | _ :: names => (st.1, names)
                     | [] => if rooted then st else (S st.1, [])
                     end
                   else (st.1, (c :: h) :: st.2)) as Hstep by done.
    destruct (isDotSeg (c :: h)) eqn:Hisdot.
    { (* a . element *)
      rewrite Hstep, IHfree by done. rewrite Hrest. cbn [foldl step].
      replace h with (@nil ascii); [done|].
      destruct h as [|? [|? ?]]; cbn in Hisdot; done. }
    assert (cleanLoop rooted true (ddlen rooted st.1)
              (c :: (if (rooted && negb (length (rev (render rooted st)) =? 1)%nat)
                        || (negb rooted
                            && negb (length (rev (render rooted st)) =? 0)%nat)
                     then slash :: rev (render rooted st)
                     else rev (render rooted st))) rest
            = rev (render rooted (foldl (step rooted) (st.1, (c :: h) :: st.2) t))
            ∨ isDotDotSeg (c :: h) = true) as Hdefault.
    { destruct (isDotDotSeg (c :: h)) eqn:Hisdd; [by right|left].
      rewrite buffer_enter_name by done.
      rewrite (IHmid st [c] Hform); rewrite ?Hrest; cbn [hd tl app]; try done.
      rewrite not_elem_of_cons. split; [by apply isSlash_neq|apply not_elem_of_nil]. }
    destruct rest as [|c2 rest2].
    { (* the last element, one byte long *)
      rewrite Hdd in Hstep. rewrite Hstep.
      destruct Hdefault as [Hdefault|Hisdd]; [|congruence]. exact Hdefault. }
    rewrite <- Hdd.
    destruct (isDotDotSeg (c :: h)) eqn:Hisdd.
    + (* a .. element *)
      rewrite Hstep.
      assert (∃ t2, split rest2 = [] :: t2 ∧ t = t2) as (t2 & Hrest2 & ->).
      { symmetry in Hdd.
        apply andb_prop in Hdd as [Hcc Hbound]. apply andb_prop in Hcc as [_ Hc2].
        apply atBoundary_split in Hbound as [t2 Ht2]. exists t2. split; [done|].
        cbn [split] in Hrest.
        replace (isSlash c2) with false in Hrest; [by rewrite Ht2 in Hrest; injection Hrest|].
        apply isDot_true in Hc2 as ->. done. }
      cbn [length] in Hlen.
      destruct (IH rest2 ltac:(lia)) as [IHfree2 _].
      destruct st as [dd [|nm names]]; cbn [fst snd].
      * (* nothing to remove *)
        replace (ddlen rooted dd <? length (rev (render rooted (dd, []))))%nat
          with false by (symmetry; apply Nat.ltb_ge; rewrite length_rev; done).
        destruct rooted; cbn [negb].
        -- pose proof (IHfree2 (dd, []) Hform) as Hr. cbn [fst snd] in Hr.
           rewrite Hr. by rewrite Hrest2.
        -- rewrite buffer_keep_dotdot.
           replace (length (rev (render false (S dd, [])))) with (ddlen false (S dd))
             by (by rewrite length_rev).
           assert (cleanForm false (S dd, [])) as Hform' by (split; [constructor|done]).
           pose proof (IHfree2 (S dd, []) Hform') as Hr. cbn [fst snd] in Hr.
           rewrite Hr. by rewrite Hrest2.
      * (* remove the innermost name *)
        replace (ddlen rooted dd <? length (rev (render rooted (dd, nm :: names))))%nat
          with true
          by (symmetry; apply Nat.ltb_lt; rewrite length_rev;
              by apply (length_render_names rooted (dd, nm :: names))).
        pose proof (buffer_pop_name rooted dd nm names Hform) as Hpop.
        assert (cleanForm rooted (dd, names)) as Hform'.
        { destruct Hform as [Hn Hr]. apply Forall_cons in Hn as [_ Hn]. by split. }
        pose proof (IHfree2 (dd, names) Hform') as Hr. cbn [fst snd] in Hr.
        destruct (rev (render rooted (dd, nm :: names))) as [|c0 out'] eqn:Hout.
        -- rewrite <- Hpop in Hr. rewrite Hr. by rewrite Hrest2.
        -- rewrite Hpop, Hr. by rewrite Hrest2.
    + (* a name *)
      rewrite Hstep. destruct Hdefault as [Hdefault|?]; [exact Hdefault|done].
  - (* inside a name *)
    intros st part Hform Hpart Hslash Hdot Hdd. cbn [cleanLoop].
    destruct (isSlash c) eqn:Hc.
    + cbn [split] in *. rewrite Hc in *. cbn [hd tl] in *.
      rewrite app_nil_r in *.
      apply (IHfree (st.1, part :: st.2)).
      apply cleanForm_push; [done|]. by repeat split.
    + destruct (split_cons_noslash c rest Hc) as (h & t & Hrest & Hp).
      rewrite Hp in *. cbn [hd tl] in *.
      replace (c :: rev (render rooted (st.1, part :: st.2)))
        with (rev (render rooted (st.1, (part ++ [c]) :: st.2)))
        by (rewrite render_push_char, rev_app_distr; done).
      replace (part ++ c :: h) with ((part ++ [c]) ++ h) in *
        by (by rewrite <- app_assoc).
      rewrite (IHmid st (part ++ [c]) Hform); rewrite ?Hrest; cbn [hd tl]; try done.
      * by destruct part.
      * rewrite not_elem_of_app, not_elem_of_cons.
        split; [done|]. split; [by apply isSlash_neq|apply not_elem_of_nil].
Qed.

(** *** [Clean] cleans the elements *)

Lemma cleaned_form rooted p :
  cleanForm rooted (foldl (step rooted) (0%nat, []) (split p)).
Proof.
  apply cleanForm_foldl; [|apply split_Forall_noslash]. split; [constructor|done].
Qed.

Lemma Clean_cleaned (s : string) :
  Clean s
  = match list_ascii_of_string s with
    | [] => "."
    | c :: _ =>
        match cleaned (isSlash c) (list_ascii_of_string s) with
        | [] => "."
        | r => string_of_list_ascii r
        end
    end.
Proof.
  unfold Clean. destruct (list_ascii_of_string s) as [|c p'] eqn:Hp; [done|].
  cbv zeta. set (rooted := isSlash c).
  assert ((if rooted then [slash] else []) = rev (render rooted (0%nat, []))) as ->
    by (by destruct rooted).
  replace (length (rev (render rooted (0%nat, [])))) with (ddlen rooted 0)
    by (by rewrite length_rev).
  assert (cleanForm rooted (0%nat, [])) as Hform by (split; [constructor|done]).
  pose proof (proj1 (cleanLoop_follows rooted (length (c :: p')) (c :: p') (le_n _))
                    (0%nat, []) Hform) as Hloop.
  cbn [fst snd] in Hloop. rewrite Hloop.
  fold (cleaned rooted (c :: p')).
  rewrite rev_involutive.
  destruct (cleaned rooted (c :: p')) as [|a r]; [done|].
  cbn [rev]. by destruct (rev r).
Qed.

Lemma foldl_step_names rooted dd acc l :
  Forall isName l → foldl (step rooted) (dd, acc) l = (dd, rev l ++ acc).
Proof.
  revert acc. induction l as [|x l IH]; intros acc Hall; [done|].
  apply Forall_cons in Hall as [(Hne & _ & Hdot & Hdd) Hall].
  cbn [foldl]. unfold step at 2. cbn [fst snd].
  destruct x as [|c x]; [done|]. rewrite Hdot, Hdd, IH by done.
  cbn [rev]. by rewrite <- app_assoc.
Qed.

Lemma foldl_step_dotdots k dd :
  foldl (step false) (k, []) (replicate dd [dot; dot]) = ((k + dd)%nat, []).
Proof.
  revert k. induction dd as [|dd IH]; intros k; [by rewrite Nat.add_0_r|].
  cbn [replicate foldl]. change (step false (k, []) [dot; dot]) with (S k, @nil (list ascii)).
  rewrite IH. f_equal. lia.
Qed.

Lemma isName_noslash s : isName s → slash ∉ s.
Proof. by intros (_ & ? & _). Qed.

(** A path in clean form is what cleaning it gives, and it starts with a
    slash exactly when it is rooted. *)
Lemma cleaned_fixed rooted st a r :
  cleanForm rooted st → render rooted st = a :: r →
  isSlash a = rooted ∧ cleaned rooted (render rooted st) = render rooted st.
Proof.
  intros [Hnames Hroot] Hr. destruct st as [dd names]. cbn [fst snd] in *.
  assert (Forall isName (rev names)) as Hrev by (by apply Forall_rev).
  assert (Forall (λ s, slash ∉ s) (elements (dd, names))) as Hnoslash.
  { unfold elements. apply Forall_app. split.
    - apply Forall_replicate. cbn [fst]. rewrite !not_elem_of_cons.
      repeat split; try done. apply not_elem_of_nil.
    - eapply Forall_impl; [exact Hrev|]. apply isName_noslash. }
  destruct rooted.
  - rewrite (Hroot eq_refl) in *. unfold render in *. cbn [app] in *.
    injection Hr as <- Hr. split; [done|].
    unfold cleaned. cbn [split]. change (isSlash slash) with true. cbn iota.
    cbn [foldl step]. unfold elements in *. cbn [fst snd replicate app] in *.
    destruct names as [|nm names].
    + done.
    + assert (rev (nm :: names) ≠ []) as Hne
        by (intros H%(f_equal length); by rewrite length_rev in H).
      rewrite split_joinSegs; [|done|done].
      rewrite foldl_step_names by done. cbn [fst snd].
      by rewrite rev_involutive, app_nil_r.
  - unfold render in *. cbn [app] in *.
    assert (elements (dd, names) ≠ []) as Hne by (intros Heq; by rewrite Heq in Hr).
    split.
    + destruct (elements (dd, names)) as [|s0 l] eqn:Hel; [done|].
      apply Forall_cons in Hnoslash as [Hs0 _].
      assert (s0 ≠ []) as Hs0ne.
      { pose proof (elements_nonempty false (dd, names)) as Hall.
        rewrite Hel in Hall. specialize (Hall ltac:(by split)).
        by apply Forall_cons in Hall as [? _]. }
      destruct s0 as [|c0 s0]; [done|].
      assert (a = c0) as ->.
      { destruct l; cbn [joinSegs app] in Hr; by injection Hr. }
      apply neq_isSlash. rewrite not_elem_of_cons in Hs0. by destruct Hs0.
    + unfold cleaned. rewrite split_joinSegs by done.
      unfold elements at 1. cbn [fst snd]. rewrite foldl_app.
      rewrite (foldl_step_dotdots 0 dd). cbn [Nat.add].
      rewrite foldl_step_names by done.
      by rewrite rev_involutive, app_nil_r.
Qed.

(** [Clean] returns a fixed point of [Clean]. *)
Lemma Clean_idempotent (s : string) : Clean (Clean s) = Clean s.
Proof.
  rewrite (Clean_cleaned s).
  destruct (list_ascii_of_string s) as [|c p'] eqn:Hp; [done|].
  unfold cleaned.
  pose proof (cleaned_form (isSlash c) (c :: p')) as Hform.
  destruct (render (isSlash c) _) as [|a r] eqn:Hr; [done|].
  rewrite Clean_cleaned, list_ascii_of_string_of_list_ascii.
  destruct (cleaned_fixed _ _ _ _ Hform Hr) as [Ha Hfix].
  rewrite Ha, <- Hr, Hfix. by rewrite Hr.
Qed.

End PathSpec.

(** ** Cleaned paths in the namers and in the alias resolver *)

Module NormalSpec.
Import GoPath PathModel PathSpec.

Lemma bytes_app (a b : string) :
  list_ascii_of_string (a +:+ b) = list_ascii_of_string a ++ list_ascii_of_string b.
Proof.
  induction a as [|c a IH]; [done|].
  change (String c a +:+ b) with (String c (a +:+ b)).
  cbn [list_ascii_of_string app]. by rewrite IH.
Qed.

Lemma append_assoc (a b c : string) : (a +:+ b) +:+ c = a +:+ b +:+ c.
Proof.
  induction a as [|x a IH]; [done|].
  change ((String x a +:+ b) +:+ c) with (String x ((a +:+ b) +:+ c)).
  change (String x a +:+ b +:+ c) with (String x (a +:+ b +:+ c)).
  by rewrite IH.
Qed.

(** A doubled slash is read as one. *)
Lemma Clean_double_slash (a b : string) :
  Clean (a +:+ "/" +:+ "/" +:+ b) = Clean (a +:+ "/" +:+ b).
Proof.
  rewrite !Clean_cleaned, !bytes_app.
  change (list_ascii_of_string "/") with [slash]. cbn [app].
  destruct (list_ascii_of_string a) as [|c la].
  - cbn [app]. change (isSlash slash) with true.
    unfold cleaned. cbn [split]. change (isSlash slash) with true. cbn iota.
    done.
  - cbn [app].
    replace (cleaned (isSlash c) (c :: la ++ slash :: slash :: list_ascii_of_string b))
      with (cleaned (isSlash c) (c :: la ++ slash :: list_ascii_of_string b)); [done|].
    unfold cleaned. rewrite !app_comm_cons.
    rewrite (split_app (c :: la) (slash :: list_ascii_of_string b)).
    rewrite (split_app (c :: la) (list_ascii_of_string b)).
    rewrite !foldl_app. cbn [split]. change (isSlash slash) with true. cbn iota.
    done.
Qed.

Lemma Join_two (a b : string) :
  Join [a; b]
  = if String.eqb a "" then (if String.eqb b "" then "" else Clean b)
    else Clean (a +:+ "/" +:+ b).
Proof.
  cbn [Join]. destruct (String.eqb a ""); [|done].
  by destruct (String.eqb b "").
Qed.

(** A joined path is empty or in clean form. *)
Lemma Join_two_clean (a b : string) :
  Join [a; b] = "" ∨ Clean (Join [a; b]) = Join [a; b].
Proof.
  rewrite Join_two. destruct (String.eqb a "").
  - destruct (String.eqb b ""); [by left|right; apply Clean_idempotent].
  - right. apply Clean_idempotent.
Qed.

Lemma Join_two_nonempty (a b : string) :
  b ≠ "" → Clean (Join [a; b]) = Join [a; b].
Proof.
  intros Hb. rewrite Join_two. destruct (String.eqb a "").
  - destruct (String.eqb_spec b ""); [done|apply Clean_idempotent].
  - apply Clean_idempotent.
Qed.

(** A trailing slash on the first of two joined paths changes nothing. *)
Lemma Join_trailing_slash (a b : string) :
  a ≠ "" → Join [a +:+ "/"; b] = Join [a; b].
Proof.
  intros Ha. rewrite !Join_two.
  destruct (String.eqb_spec a "") as [|_]; [done|].
  destruct (String.eqb_spec (a +:+ "/") "") as [Heq|_].
  - destruct a; discriminate Heq.
  - rewrite append_assoc. apply Clean_double_slash.
Qed.

(** A leading [./] on a path that is not rooted changes nothing. *)
Lemma Clean_leading_dot (c : ascii) (p : string) :
  isSlash c = false →
  Clean ("./" +:+ String c p) = Clean (String c p).
Proof.
  intros Hc. rewrite !Clean_cleaned.
  change (list_ascii_of_string ("./" +:+ String c p))
    with ([dot] ++ slash :: c :: list_ascii_of_string p).
  change (list_ascii_of_string (String c p)) with (c :: list_ascii_of_string p).
  cbn [app]. change (isSlash dot) with false. rewrite Hc.
  replace (cleaned false (dot :: slash :: c :: list_ascii_of_string p))
    with (cleaned false (c :: list_ascii_of_string p)); [done|].
  unfold cleaned.
  change (dot :: slash :: c :: list_ascii_of_string p)
    with ([dot] ++ slash :: c :: list_ascii_of_string p).
  rewrite split_app, foldl_app. done.
Qed.

Lemma Join_leading_dot (c : ascii) (a b : string) :
  isSlash c = false →
  Join ["./" +:+ String c a; b] = Join [String c a; b].
Proof.
  intros Hc. rewrite !Join_two.
  change (String.eqb ("./" +:+ String c a) "") with false.
  change (String.eqb (String c a) "") with false. cbn iota.
  rewrite append_assoc. by apply (Clean_leading_dot c (a +:+ "/" +:+ b)).
Qed.

Section Namers.
Context {error value FuncMap template ext : Type}.
Variable toGoTemplate : tplate → @gomplate value FuncMap → ext → result error template * ext.
Variable Execute : template → writer → iface value → ext → (string * option error) * ext.
Variable Wrapf : error → gmap string (iface value) → string → error.

Local Abbreviation simpleNamer := (@simpleNamer error ext).
Local Abbreviation mappingNamer := (mappingNamer toGoTemplate Execute Wrapf).

(** X22: the path the static namer returns is in clean form: cleaning it
    again returns it unchanged.  It is [filepath.Join(outDir, p)], the
    cleaning after the join changing nothing, unless both are empty, when
    it is ["."]. *)
Theorem simpleNamer_clean_form (outDir p : string) (w : @world ext) :
  GoFilepath.Clean ((simpleNamer outDir p w).1.1) = (simpleNamer outDir p w).1.1
  ∧ (simpleNamer outDir p w).1.1
    = if String.eqb outDir "" && String.eqb p "" then "."
      else GoFilepath.Join [outDir; p].
Proof.
  unfold Gomplate.simpleNamer, GoFilepath.Clean, GoFilepath.Join.
  cbn [mret St_ret fst snd]. split; [apply Clean_idempotent|].
  rewrite Join_two.
  destruct (String.eqb outDir ""); cbn [andb].
  - destruct (String.eqb p ""); [done|apply Clean_idempotent].
  - apply Clean_idempotent.
Qed.

(** X23: a trailing slash on the output directory makes no difference to
    the static namer. *)
Theorem simpleNamer_trailing_slash (outDir p : string) (w : @world ext) :
  outDir ≠ "" →
  simpleNamer (outDir +:+ "/") p w = simpleNamer outDir p w.
Proof.
  intros Hne. unfold Gomplate.simpleNamer, GoFilepath.Clean, GoFilepath.Join.
  cbn [mret St_ret]. by rewrite Join_trailing_slash.
Qed.

(** X24: when the dynamic namer succeeds, the path it returns is in clean
    form; when it fails, the path is empty. *)
Theorem mappingNamer_clean_form (outMap : string) (g : @gomplate value FuncMap)
        (inPath : string) (w : @world ext) :
  match (mappingNamer outMap g inPath w).1.2 with
  | None =>
      GoFilepath.Clean ((mappingNamer outMap g inPath w).1.1)
      = (mappingNamer outMap g inPath w).1.1
  | Some _ => (mappingNamer outMap g inPath w).1.1 = ""
  end.
Proof.
  rewrite (EngineSpec.mappingNamer_unfold toGoTemplate Execute Wrapf). cbv zeta.
  destruct (toGoTemplate _ g (outside w)) as [[tpl|err] e1]; [|done].
  destruct (Execute tpl Buffer _ e1) as [[written [err|]] e2]; [done|].
  cbn [fst snd]. apply Clean_idempotent.
Qed.

End Namers.

Section Aliases.
Import Aliases.
Context {error : Type}.
Variable Stat : string → result error FileInfo.
Variable ReadDir : string → result error (list FileInfo).

Local Abbreviation parseTemplateArg := (parseTemplateArg Stat ReadDir).

Lemma foldl_addEntry_ext prefix pth prefix' pth' files (ta : templateAliases) :
  (∀ f, f ∈ files →
        Join [prefix; Name f] = Join [prefix'; Name f]
        ∧ Join [pth; Name f] = Join [pth'; Name f]) →
  foldl (addEntry prefix pth) ta files = foldl (addEntry prefix' pth') ta files.
Proof.
  revert ta. induction files as [|f files IH]; intros ta Heq; [done|].
  cbn [foldl]. destruct (Heq f (list_elem_of_here _ _)) as [Hk Hv].
  unfold addEntry at 2 4. rewrite Hk, Hv.
  apply IH. intros f' Hin. apply Heq. by apply list_elem_of_further.
Qed.

(** X25: a trailing slash on a directory argument makes no difference:
    [alias=dir/] registers what [alias=dir] registers, as long as the
    filesystem lists the same entries for both spellings. *)
Theorem directory_trailing_slash (alias pth : string) (ta : templateAliases)
        fi fi' files :
  "="%char ∉ list_ascii_of_string alias →
  pth ≠ "" →
  Stat pth = Ok fi → IsDir fi = true → ReadDir pth = Ok files →
  Stat (pth +:+ "/") = Ok fi' → IsDir fi' = true → ReadDir (pth +:+ "/") = Ok files →
  parseTemplateArg (alias +:+ "=" +:+ pth +:+ "/") ta
  = parseTemplateArg (alias +:+ "=" +:+ pth) ta.
Proof.
  intros Halias Hne HS Hd HR HS' Hd' HR'.
  pose proof (AliasSpec.splitArg_named alias pth Halias) as Hs.
  pose proof (AliasSpec.splitArg_named alias (pth +:+ "/") Halias) as Hs'.
  rewrite (AliasSpec.parseTemplateArg_directory Stat ReadDir _ ta fi' files);
    rewrite ?Hs'; try done.
  rewrite (AliasSpec.parseTemplateArg_directory Stat ReadDir _ ta fi files);
    rewrite ?Hs; try done.
  cbn [fst snd]. f_equal. apply foldl_addEntry_ext. intros f _.
  rewrite (Join_trailing_slash pth) by done. split; [|done].
  destruct (String.eqb alias ""); [by apply Join_trailing_slash|done].
Qed.

(** X27: a leading [./] on a directory argument given without an alias
    makes no difference either, when the directory path is not rooted:
    [./dir] registers what [dir] registers, under the same keys, as long as
    the filesystem lists the same entries for both spellings. *)
Theorem directory_leading_dot (c : ascii) (pth : string) (ta : templateAliases)
        fi fi' files :
  isSlash c = false →
  "="%char ∉ list_ascii_of_string (String c pth) →
  Stat (String c pth) = Ok fi → IsDir fi = true → ReadDir (String c pth) = Ok files →
  Stat ("./" +:+ String c pth) = Ok fi' → IsDir fi' = true →
  ReadDir ("./" +:+ String c pth) = Ok files →
  parseTemplateArg ("./" +:+ String c pth) ta = parseTemplateArg (String c pth) ta.
Proof.
  intros Hc Heq HS Hd HR HS' Hd' HR'.
  assert ("="%char ∉ list_ascii_of_string ("./" +:+ String c pth)) as Heq'.
  { change (list_ascii_of_string ("./" +:+ String c pth))
      with (dot :: slash :: list_ascii_of_string (String c pth)).
    rewrite !not_elem_of_cons. by repeat split. }
  pose proof (AliasSpec.splitArg_bare _ Heq) as Hs.
  pose proof (AliasSpec.splitArg_bare _ Heq') as Hs'.
  rewrite (AliasSpec.parseTemplateArg_directory Stat ReadDir _ ta fi' files);
    rewrite ?Hs'; try done.
  rewrite (AliasSpec.parseTemplateArg_directory Stat ReadDir _ ta fi files);
    rewrite ?Hs; try done.
  cbn [fst snd]. change (String.eqb "" "") with true. cbn iota.
  f_equal. apply foldl_addEntry_ext. intros f _.
  by rewrite (Join_leading_dot c pth (Name f) Hc).
Qed.

(** X26: every alias a directory argument registers, and the path it is
    bound to, is in clean form, provided the listed entries have names. *)
Theorem directory_aliases_clean_form templateArg fi files (k v : string) :
  Stat (splitArg templateArg).2 = Ok fi → IsDir fi = true →
  ReadDir (splitArg templateArg).2 = Ok files →
  Forall (λ f, Name f ≠ "") files →
  produced Stat ReadDir templateArg !! k = Some v →
  Clean k = k ∧ Clean v = v.
Proof.
  intros HS Hd HR Hnames. unfold produced.
  rewrite (AliasSpec.parseTemplateArg_directory Stat ReadDir _ ∅ fi files) by done.
  cbn [fst]. clear HR.
  induction files as [|f files IH] using rev_ind;
    [cbn [foldl]; by rewrite lookup_empty|].
  apply Forall_app in Hnames as [Hfiles Hf]. apply Forall_cons in Hf as [Hf _].
  rewrite AliasSpec.foldl_addEntry_snoc. unfold addEntry at 1.
  destruct (negb (IsDir f)); [|by apply IH].
  rewrite lookup_insert. case_decide as Hk; [|by apply IH].
  intros [= <-]. rewrite <- Hk. split; by apply Join_two_nonempty.
Qed.

End Aliases.
End NormalSpec.

(** ** The properties on the concrete instance *)

Module DemoSpec.
Import Demo.

Local Abbreviation runTemplates :=
  (runTemplates toGoTemplate Execute Close now since Wrapf gatherTemplates).
Local Abbreviation RunTemplates :=
  (RunTemplates (λ _, Stat) (λ _, ReadDir) Funcs NewData Cleanup createContext
                defaults toGoTemplate Execute Close now since Wrapf gatherTemplates).
Local Abbreviation mappingNamer := (mappingNamer toGoTemplate Execute Wrapf).

(** Three templates, the second of which fails to execute. *)
Lemma runTemplates_fail_fast_witness :
  (runTemplates g0 three s0).1 = Some "exec failed"
  ∧ Errors (Metrics ((runTemplates g0 three s0).2)) = 1%Z
  ∧ TemplatesProcessed (Metrics ((runTemplates g0 three s0).2)) = 1%Z
  ∧ trace (io ((runTemplates g0 three s0).2))
    = [EvGather;
       EvParse (descriptor "one"); EvExecute (descriptor "one");
       EvClose (File "out/one");
       EvParse (descriptor "{{fail}}"); EvExecute (descriptor "{{fail}}");
       EvClose (File "out/{{fail}}")].
Proof.
  pose proof (EngineSpec.runTemplates_fail_fast
                toGoTemplate Execute Close now since Wrapf gatherTemplates
                g0 three s0
                [descriptor "one"; descriptor "{{fail}}"; descriptor "three"]
                {| outside := 0%nat; trace := [EvGather] |}
                eq_refl eq_refl eq_refl) as [Hfail _].
  destruct (Hfail [descriptor "one"] (descriptor "{{fail}}") [descriptor "three"]
                  "exec failed"
                  {| outside := 3%nat;
                     trace := [EvGather; EvParse (descriptor "one");
                               EvExecute (descriptor "one"); EvClose (File "out/one")] |}
                  {| outside := 6%nat;
                     trace := [EvGather; EvParse (descriptor "one");
                               EvExecute (descriptor "one"); EvClose (File "out/one");
                               EvParse (descriptor "{{fail}}");
                               EvExecute (descriptor "{{fail}}");
                               EvClose (File "out/{{fail}}")] |}
                  eq_refl eq_refl eq_refl) as (H1 & H2 & H3 & H4).
  split; [exact H1|]. split; [exact H2|]. split; [exact H3|].
  rewrite H4. reflexivity.
Defined.

(** The second template-alias argument names a path that does not exist. *)
Lemma RunTemplates_alias_failure_witness :
  Aliases.parseTemplateArgs Stat ReadDir ["x=one.t"; "nope"; "tpl"]
  = (None, Some "stat nope: no such file or directory")
  ∧ (RunTemplates badAlias s0).1 = Some "stat nope: no such file or directory"
  ∧ trace (io ((RunTemplates badAlias s0).2)) = [EvNewData; EvCleanup].
Proof.
  refine (EngineSpec.RunTemplates_alias_failure
            (λ _, Stat) (λ _, ReadDir) Funcs NewData Cleanup createContext defaults
            toGoTemplate Execute Close now since Wrapf gatherTemplates
            badAlias s0 tt 1%nat ["x=one.t"] "nope" ["tpl"]
            "stat nope: no such file or directory"
            eq_refl eq_refl _ _).
  - constructor; [|constructor].
    exists (file "one.t"). split; [reflexivity|]. intros [=].
  - left. reflexivity.
Defined.

(** A directory given under an alias: the files are bound one level deep
    under the alias, the sub-directory is not. *)
Lemma directory_aliases_one_level_witness :
  (Aliases.parseTemplateArg Stat ReadDir "q=./tpl" ∅).2 = None
  ∧ (Aliases.parseTemplateArg Stat ReadDir "q=./tpl" ∅).1 !! "q/a.t" = Some "tpl/a.t"
  ∧ (Aliases.parseTemplateArg Stat ReadDir "q=./tpl" ∅).1 !! "q/b.t" = Some "tpl/b.t"
  ∧ (Aliases.parseTemplateArg Stat ReadDir "q=./tpl" ∅).1 !! "q/sub" = None.
Proof.
  destruct (AliasSpec.directory_aliases_one_level
              Stat ReadDir "q=./tpl" ∅ (dir "tpl") [file "a.t"; dir "sub"; file "b.t"]
              eq_refl eq_refl eq_refl) as (Herr & _ & Hval & Hrest).
  split; [exact Herr|]. split; [|split].
  - apply (Hval 0%nat (file "a.t") eq_refl eq_refl).
    intros [|[|[|j]]] f' Hlt Hj Hf'; [lia| | |discriminate Hj];
      injection Hj as <-; discriminate.
  - apply (Hval 2%nat (file "b.t") eq_refl eq_refl).
    intros [|[|[|j]]] f' Hlt Hj Hf'; [lia|lia|lia|discriminate Hj].
  - rewrite (Hrest "q/sub"); [reflexivity|].
    intros f Hin Hf.
    apply elem_of_cons in Hin as [->|Hin]; [discriminate|].
    apply elem_of_cons in Hin as [->|Hin]; [discriminate|].
    apply list_elem_of_singleton in Hin as ->. discriminate.
Defined.

(** The alias [x] declared twice, with a directory before and after. *)
Lemma alias_last_wins_witness :
  ∃ m : templateAliases,
    Aliases.parseTemplateArgs Stat ReadDir ["tpl"; "x=one.t"; "x=two.t"; "q=tpl"]
    = (Some m, None)
    ∧ m !! "x" = Some "two.t".
Proof.
  refine (AliasSpec.alias_last_wins Stat ReadDir
            ["tpl"] [] ["q=tpl"] "x=one.t" "x=two.t" "x" "one.t" "two.t"
            _ eq_refl eq_refl _).
  - repeat constructor.
    + exists (dir "tpl"). split; [reflexivity|]. intros _. eexists. reflexivity.
    + exists (file "one.t"). split; [reflexivity|]. intros [=].
    + exists (file "two.t"). split; [reflexivity|]. intros [=].
    + exists (dir "tpl"). split; [reflexivity|]. intros _. eexists. reflexivity.
  - repeat constructor.
Defined.

(** C4 as stated fails: the directory [./tpl] given without an alias binds
    its file [a.t] under [tpl/a.t], the cleaned join, and binds nothing
    under [./tpl/a.t]. *)
Lemma directory_alias_key_is_cleaned : ¬ Aliases.literal_key_rule.
Proof.
  intros Hrule.
  specialize (Hrule string Stat ReadDir "./tpl" ∅ (dir "tpl")
                    [file "a.t"; dir "sub"; file "b.t"] (file "a.t")
                    eq_refl eq_refl eq_refl).
  assert (file "a.t" ∈ [file "a.t"; dir "sub"; file "b.t"]) as Hin
    by apply list_elem_of_here.
  specialize (Hrule Hin eq_refl).
  vm_compute in Hrule. discriminate Hrule.
Qed.

(** C3 as stated fails: asked about two inputs, the dynamic namer
    compiles the mapping template twice. *)
Lemma mapping_template_compiled_twice : ¬ compiled_once_rule.
Proof.
  intros Hrule.
  specialize (Hrule string unit unit string nat toGoTemplate Execute Wrapf
                    "{{.in}}.out" g0 ["a/b"; "c"] w0).
  assert (["a/b"; "c"] ≠ []) as Hne by discriminate.
  specialize (Hrule Hne).
  vm_compute in Hrule. discriminate Hrule.
Qed.

(** *** More runs of the instance *)

Lemma validateOpts_count_mismatch_witness :
  MainOpts.validateOpts changedFileOut twoFilesOneOut
  = Some "must provide same number of --out (1) as --file (2) options".
Proof.
  refine (MainOptsSpec.validateOpts_count_mismatch changedFileOut twoFilesOneOut _ _).
  - intros [H _]. discriminate H.
  - discriminate.
Defined.

Lemma file_alias_witness :
  Aliases.parseTemplateArg Stat ReadDir "x=one.t" ∅ = ({["x" := "one.t"]}, None)
  ∧ Aliases.parseTemplateArg Stat ReadDir "one.t" ∅ = ({["one.t" := "one.t"]}, None).
Proof.
  assert ("="%char ∉ list_ascii_of_string "x") as Hx
    by (cbn [list_ascii_of_string]; rewrite !not_elem_of_cons;
        repeat split; try discriminate; apply not_elem_of_nil).
  assert ("="%char ∉ list_ascii_of_string "one.t") as Hp
    by (cbn [list_ascii_of_string]; rewrite !not_elem_of_cons;
        repeat split; try discriminate; apply not_elem_of_nil).
  destruct (AliasSpec.file_alias Stat ReadDir "x" "one.t" ∅ (file "one.t")
              Hx eq_refl eq_refl) as [H1 H2].
  split; [exact H1|exact (H2 Hp)].
Defined.

Lemma alias_map_lookup_witness :
  default ∅ (Aliases.parseTemplateArgs Stat ReadDir ["x=one.t"; "tpl"; "x=two.t"]).1
    !! "x" = Some "two.t".
Proof.
  apply (AliasSpec.alias_map_lookup Stat ReadDir ["x=one.t"; "tpl"; "x=two.t"]
           _ "x" "two.t" eq_refl).
  exists ["x=one.t"; "tpl"], "x=two.t", []. repeat split. constructor.
Defined.

Lemma directory_without_files_witness :
  Aliases.parseTemplateArg StatMore ReadDirMore "e=empty" {["x" := "one.t"]}
  = ({["x" := "one.t"]}, None).
Proof.
  refine (AliasSpec.directory_without_files StatMore ReadDirMore "e=empty" _
            (dir "empty") [dir "sub"] eq_refl eq_refl eq_refl _).
  repeat constructor.
Defined.

Local Abbreviation outputMap bad :=
  {| name := "<OutputMap>"; contents := bad; target := Buffer |}.

Lemma runTemplates_gather_failure_witness :
  (runTemplates g0 badMap s0).1 = Some "unclosed action"
  ∧ Errors (Metrics ((runTemplates g0 badMap s0).2)) = 1%Z
  ∧ TemplatesGathered (Metrics ((runTemplates g0 badMap s0).2)) = 0%Z
  ∧ TemplatesProcessed (Metrics ((runTemplates g0 badMap s0).2)) = 0%Z.
Proof.
  destruct (EngineSpec.runTemplates_gather_failure
              toGoTemplate Execute Close now since Wrapf gatherTemplates
              g0 badMap s0 [] "unclosed action"
              {| outside := 1%nat; trace := [EvGather; EvParse (outputMap "{{")] |}
              eq_refl) as (H1 & _ & H3 & H4 & H5 & _).
  split; [exact H1|]. split; [exact H3|]. split; [exact H4|exact H5].
Defined.

Lemma runTemplates_counts_witness :
  TemplatesGathered (Metrics ((runTemplates g0 three s0).2)) = 3%Z
  ∧ parsed (trace (io ((runTemplates g0 three s0).2)))
    = [descriptor "one"; descriptor "{{fail}}"].
Proof.
  destruct (EngineSpec.runTemplates_counts
              toGoTemplate Execute Close now since Wrapf gatherTemplates
              g0 three s0
              [descriptor "one"; descriptor "{{fail}}"; descriptor "three"]
              {| outside := 0%nat; trace := [EvGather] |}
              eq_refl eq_refl eq_refl) as (H1 & _ & _ & H4).
  split; [exact H1|exact H4].
Defined.

Lemma runTemplates_render_durations_witness :
  is_Some (RenderDuration (Metrics ((runTemplates g0 three s0).2)) !! "{{fail}}").
Proof.
  apply (EngineSpec.runTemplates_render_durations
           toGoTemplate Execute Close now since Wrapf gatherTemplates
           g0 three s0
           [descriptor "one"; descriptor "{{fail}}"; descriptor "three"]
           {| outside := 0%nat; trace := [EvGather] |} "{{fail}}"
           eq_refl eq_refl eq_refl).
  right. change ("{{fail}}" ∈ ["one"; "{{fail}}"]).
  apply list_elem_of_further, list_elem_of_here.
Defined.

Lemma RunTemplates_NewData_failure_witness :
  (Gomplate.RunTemplates (λ _, Stat) (λ _, ReadDir) Funcs NewDataFail Cleanup
     createContext defaults toGoTemplate Execute Close now since Wrapf
     gatherTemplates three s0).1 = Some "no such datasource"
  ∧ trace (io ((Gomplate.RunTemplates (λ _, Stat) (λ _, ReadDir) Funcs NewDataFail
                  Cleanup createContext defaults toGoTemplate Execute Close now since
                  Wrapf gatherTemplates three s0).2)) = [EvNewData].
Proof.
  destruct (EngineSpec.RunTemplates_NewData_failure
              (λ _, Stat) (λ _, ReadDir) Funcs NewDataFail Cleanup createContext defaults
              toGoTemplate Execute Close now since Wrapf gatherTemplates
              three s0 "no such datasource" 1%nat eq_refl) as (H1 & _ & _ & H4).
  split; [exact H1|exact H4].
Defined.

Lemma RunTemplates_alias_failure_counters_witness :
  (RunTemplates badAlias s0).1 = Some "stat nope: no such file or directory"
  ∧ Metrics ((RunTemplates badAlias s0).2) = newMetrics
  ∧ Errors (Metrics ((RunTemplates badAlias s0).2)) = 0%Z.
Proof.
  refine (EngineSpec.RunTemplates_alias_failure_counters
            (λ _, Stat) (λ _, ReadDir) Funcs NewData Cleanup createContext defaults
            toGoTemplate Execute Close now since Wrapf gatherTemplates
            badAlias s0 tt 1%nat ["x=one.t"] "nope" ["tpl"]
            "stat nope: no such file or directory"
            eq_refl eq_refl _ _).
  - constructor; [|constructor].
    exists (file "one.t"). split; [reflexivity|]. intros [=].
  - left. reflexivity.
Defined.



Lemma gatherFiles_length namer files (w : @world nat) :
  (length (gatherFiles namer files w).1.1 ≤ length files)%nat.
Proof.
  revert w. induction files as [|f files IH]; intros w; [done|].
  cbn [gatherFiles]. unfold mbind, St_bind, mret, St_ret.
  destruct (namer f w) as [[out [e|]] w1]; cbn [fst snd length]; [lia|].
  specialize (IH w1).
  destruct (gatherFiles namer files w1) as [[ts [e|]] w2]; cbn [fst snd length] in *; lia.
Qed.

Lemma RunTemplates_counters_witness :
  (Errors (Metrics ((RunTemplates three s0).2)) = 0%Z
   ∨ Errors (Metrics ((RunTemplates three s0).2)) = 1%Z)
  ∧ (0 ≤ TemplatesProcessed (Metrics ((RunTemplates three s0).2))
     ≤ TemplatesGathered (Metrics ((RunTemplates three s0).2)))%Z.
Proof.
  destruct (EngineSpec.RunTemplates_counters
              (λ _, Stat) (λ _, ReadDir) Funcs NewData Cleanup createContext defaults
              toGoTemplate Execute Close now since Wrapf gatherTemplates
              three s0) as (H1 & _ & H3 & _).
  - intros g w.
    pose proof (gatherFiles_length (chooseNamer toGoTemplate Execute Wrapf three g)
                  ["one"; "{{fail}}"; "three"] w) as Hle.
    change (length ["one"; "{{fail}}"; "three"]) with 3%nat in Hle.
    change (defaults three) with three.
    change (gatherTemplates three (chooseNamer toGoTemplate Execute Wrapf three g) w)
      with (gatherFiles (chooseNamer toGoTemplate Execute Wrapf three g)
              ["one"; "{{fail}}"; "three"] w).
    lia.
  - split; [exact H1|exact H3].
Defined.


Local Abbreviation hello out := {| name := ""; contents := "hello"; target := out |}.

Lemma RenderTemplate_closes_writer_witness :
  (Render.RenderTemplate Funcs NewData Cleanup toGoTemplate Execute Close ReadAll
     "hello" (File "out.txt") None s0).1 = None
  ∧ trace (io ((Render.RenderTemplate Funcs NewData Cleanup toGoTemplate Execute Close
                  ReadAll "hello" (File "out.txt") None s0).2))
    = [EvNewData; EvParse (hello (File "out.txt")); EvExecute (hello (File "out.txt"));
       EvClose (File "out.txt"); EvCleanup]
  ∧ outside (io ((Render.RenderTemplate Funcs NewData Cleanup toGoTemplate Execute Close
                    ReadAll "hello" (File "out.txt") None s0).2))
    = Cleanup tt (Close (File "out.txt")
                    (Execute "hello" (File "out.txt") INil 3%nat).2).
Proof.
  exact (RenderSpec.RenderTemplate_closes_writer
           Funcs NewData Cleanup toGoTemplate Execute Close ReadAll
           "hello" (File "out.txt") None s0 tt 1%nat "hello" 2%nat "hello" 3%nat
           eq_refl eq_refl eq_refl).
Defined.


Lemma RenderTemplate_NewData_failure_witness :
  Render.RenderTemplate Funcs NewDataFail Cleanup toGoTemplate Execute Close ReadAll
    "hello" (File "out.txt") None s0
  = (Some "no such datasource",
     {| io := {| outside := 1%nat; trace := [EvNewData] |};
        Metrics := newMetrics; cleanupHooks := [] |}).
Proof.
  exact (RenderSpec.RenderTemplate_NewData_failure
           Funcs NewDataFail Cleanup toGoTemplate Execute Close ReadAll
           "hello" (File "out.txt") None s0 "no such datasource" 1%nat eq_refl).
Defined.

Lemma simpleNamer_trailing_slash_witness :
  @simpleNamer string nat ("out" +:+ "/") "a/b" w0 = @simpleNamer string nat "out" "a/b" w0.
Proof.
  refine (NormalSpec.simpleNamer_trailing_slash "out" "a/b" w0 _). discriminate.
Defined.

Lemma directory_trailing_slash_witness :
  Aliases.parseTemplateArg StatMore ReadDirMore ("q" +:+ "=" +:+ "tpl" +:+ "/") ∅
  = Aliases.parseTemplateArg StatMore ReadDirMore ("q" +:+ "=" +:+ "tpl") ∅.
Proof.
  refine (NormalSpec.directory_trailing_slash StatMore ReadDirMore "q" "tpl" ∅
            (dir "tpl") (dir "tpl") [file "a.t"; dir "sub"; file "b.t"]
            _ _ eq_refl eq_refl eq_refl eq_refl eq_refl eq_refl).
  - cbn [list_ascii_of_string]. rewrite !not_elem_of_cons.
    repeat split; try discriminate. apply not_elem_of_nil.
  - discriminate.
Defined.

Lemma directory_leading_dot_witness :
  Aliases.parseTemplateArg Stat ReadDir ("./" +:+ "tpl") ∅
  = Aliases.parseTemplateArg Stat ReadDir "tpl" ∅.
Proof.
  refine (NormalSpec.directory_leading_dot Stat ReadDir "t"%char "pl" ∅
            (dir "tpl") (dir "tpl") [file "a.t"; dir "sub"; file "b.t"]
            eq_refl _ eq_refl eq_refl eq_refl eq_refl eq_refl eq_refl).
  cbn [list_ascii_of_string]. rewrite !not_elem_of_cons.
  repeat split; try discriminate. apply not_elem_of_nil.
Defined.

Lemma directory_aliases_clean_form_witness :
  GoPath.Clean "q/a.t" = "q/a.t" ∧ GoPath.Clean "tpl/a.t" = "tpl/a.t".
Proof.
  refine (NormalSpec.directory_aliases_clean_form Stat ReadDir "q=./tpl"
            (dir "tpl") [file "a.t"; dir "sub"; file "b.t"] "q/a.t" "tpl/a.t"
            eq_refl eq_refl eq_refl _ eq_refl).
  repeat constructor; discriminate.
Defined.

(** *** Worked examples from the design document *)

Example dynamic_namer_in :
  (mappingNamer "{{.in}}.out" g0 "a/b" w0).1 = ("a/b.out", None).
Proof. reflexivity. Qed.

Example derived_context_sees_keys :
  derivedContext g0 "a/b" !! "X" = Some (IString "x")
  ∧ derivedContext g0 "a/b" !! "ctx" = Some (context g0)
  ∧ derivedContext g0 "a/b" !! "in" = Some (IString "a/b").
Proof. repeat split; reflexivity. Qed.

Example static_namer_paths :
  (@simpleNamer string nat "out" "." w0).1 = ("out", None)
  ∧ (@simpleNamer string nat "out" "a/../b" w0).1 = ("out/b", None)
  ∧ (@simpleNamer string nat "out" "../x" w0).1 = ("x", None)
  ∧ (@simpleNamer string nat "" "" w0).1 = (".", None).
Proof. repeat split; reflexivity. Qed.

Example include_exclude_precedence :
  Main.processIncludes ["keep.tmpl"] ["*.tmpl"] = Some ["*"; "!keep.tmpl"; "*.tmpl"].
Proof. reflexivity. Qed.

Example stdout_is_not_closed :
  trace ((runTemplate toGoTemplate Execute Close g0
            {| name := "<arg>"; contents := "hello"; target := Stdout |} w0).2)
  = [EvParse {| name := "<arg>"; contents := "hello"; target := Stdout |};
     EvExecute {| name := "<arg>"; contents := "hello"; target := Stdout |}].
Proof. reflexivity. Qed.

(** *** The standard-library transcriptions on sample inputs *)

(** [path.Clean] on the table of inputs and outputs the library is tested
    with. *)
Example Clean_examples :
  forallb (λ io, String.eqb (GoPath.Clean io.1) io.2)
    [ (* already clean *)
      ("", "."); ("abc", "abc"); ("abc/def", "abc/def"); ("a/b/c", "a/b/c");
      (".", "."); ("..", ".."); ("../..", "../.."); ("../../abc", "../../abc");
      ("/abc", "/abc"); ("/", "/");
      (* trailing slash *)
      ("abc/", "abc"); ("abc/def/", "abc/def"); ("a/b/c/", "a/b/c");
      ("./", "."); ("../", ".."); ("../../", "../.."); ("/abc/", "/abc");
      (* doubled slash *)
      ("abc//def//ghi", "abc/def/ghi"); ("//abc", "/abc"); ("///abc", "/abc");
      ("//abc//", "/abc"); ("abc//", "abc");
      (* . elements *)
      ("abc/./def", "abc/def"); ("/./abc/def", "/abc/def"); ("abc/.", "abc");
      (* .. elements *)
      ("abc/def/ghi/../jkl", "abc/def/jkl"); ("abc/def/../ghi/../jkl", "abc/jkl");
      ("abc/def/..", "abc"); ("abc/def/../..", "."); ("/abc/def/../..", "/");
      ("abc/def/../../..", ".."); ("/abc/def/../../..", "/");
      ("abc/def/../../../ghi/jkl/../../../mno", "../../mno");
      (* combinations *)
      ("abc/./../def", "def"); ("abc//./../def", "def");
      ("abc/../../././../def", "../../def");
      (* dots inside names *)
      ("..a/.b", "..a/.b"); ("a/...", "a/..."); ("./t", "t") ]
  = true.
Proof. reflexivity. Qed.

Example Join_examples :
  GoPath.Join ["a"; "b"] = "a/b" /\
  GoPath.Join [""; ""] = "" /\
  GoPath.Join ["t/"; "x.t"] = "t/x.t" /\
  GoPath.Join [""; "b"] = "b" /\
  GoPath.Join ["a"; ""] = "a" /\
  GoPath.Join ["out"; "../x"] = "x".
Proof. repeat split; reflexivity. Qed.

Example TrimSpace_examples :
  GoStrings.TrimSpace "  a b  " = "a b" /\
  GoStrings.TrimSpace "" = "" /\
  GoStrings.TrimSpace "   " = "" /\
  GoStrings.SplitN2 "a=b=c" "="%char = ["a"; "b=c"] /\
  GoStrings.SplitN2 "abc" "="%char = ["abc"] /\
  GoStrings.SplitN2 "=abc" "="%char = [""; "abc"].
Proof. repeat split; reflexivity. Qed.

End DemoSpec.
